(** * minidb: an in-memory key/value store with per-key reservations

    Shallow embedding of [src/minidb/main.go].  The three HTTP handlers
    ([handleReservation], [handleUpdate], [handleSet]) run as goroutines
    over one shared [Cache]; every statement of a handler that touches
    shared memory or a lock is one atomic transition of a thread, and the
    program points are named after the source lines they embed. *)

From stdpp Require Import gmap strings list.
From Stdlib Require Import ZArith Ascii String.

Local Open Scope Z_scope.
Local Open Scope string_scope.

(** ** Token generation: [uuid] (main.go, lines 230-245) *)

Module Uuid.

(** One lowercase hexadecimal digit, as [fmt]'s [%x] prints it. *)
Definition hex_digit (n : Z) : ascii :=
  match n with
  | 0 => "0" | 1 => "1" | 2 => "2" | 3 => "3" | 4 => "4" | 5 => "5"
  | 6 => "6" | 7 => "7" | 8 => "8" | 9 => "9" | 10 => "a" | 11 => "b"
  | 12 => "c" | 13 => "d" | 14 => "e" | _ => "f"
  end%char.

(** [%x] on a byte slice prints two digits per byte. *)
Definition hex_byte (b : Z) : string :=
  String (hex_digit (Z.shiftr (Z.land b 255) 4))
    (String (hex_digit (Z.land b 15)) EmptyString).

Fixpoint hex (bs : list Z) : string :=
  match bs with
  | [] => EmptyString
  | b :: bs' => hex_byte b ++ hex bs'
  end.

(** Go's [b[i:j]]; the indices used by [uuid] are always in range. *)
Definition slice (b : list Z) (i j : nat) : list Z := take (j - i) (drop i b).

(** [b := make([]byte, 16); Random.Read(b)]: the buffer starts zeroed and
    the bytes delivered by the device overwrite its prefix; the number
    of bytes read and the error are ignored by the source. *)
Definition read16 (delivered : list Z) : list Z :=
  (take 16 ((λ x, Z.land x 255) <$> delivered) ++
   replicate (16 - List.length (take 16 delivered)) 0)%list.

(** The body of [uuid] once the 16 bytes are in [b]. *)
Definition format (b : list Z) : string :=
  let b := alter (λ x, Z.lor (Z.land x 15) 64) 6%nat b in      (* 0x0f, 0x40 *)
  let b := alter (λ x, Z.lor (Z.land x 63) 128) 8%nat b in     (* 0x3f, 0x80 *)
  hex (slice b 0 4) ++ "-" ++ hex (slice b 4 6) ++ "-" ++
  hex (slice b 6 8) ++ "-" ++ hex (slice b 8 10) ++ "-" ++ hex (drop 10 b).

(** [/dev/urandom] is the list of what its successive reads deliver;
    once exhausted a read delivers nothing. *)
Definition uuid (urandom : list (list Z)) : string * list (list Z) :=
  match urandom with
  | [] => (format (read16 []), [])
  | d :: rest => (format (read16 d), rest)
  end.

End Uuid.

(** ** Data model (main.go, lines 18-43) *)

(** [Entry]: the embedded [sync.RWMutex] is only ever write-locked, so it
    is a boolean; [cond] is the list of goroutines parked in [Wait]. *)
Record Entry := mkEntry {
  held : bool;
  cond : list nat;
  value : string;
  lockID : string
}.

(** [Cache]: a [sync.RWMutex] (writer flag, reader count) and the map.
    Entries are never removed or replaced, so the pointer stored under a
    key is identified with the key. *)
Record Cache := mkCache {
  wlocked : bool;
  readers : nat;
  storage : gmap string Entry
}.

(** The memory shared by all goroutines: the server's cache and the
    package-level random device. *)
Record World := mkWorld {
  cache : Cache;
  urandom : list (list Z)
}.

(** [Response], the JSON helper struct, and what a handler writes. *)
Record Response := mkResponse { LockID : string; Value : string }.

Inductive Body :=
| ErrorBody (msg : string)      (* sendError: {"error": msg} *)
| JsonBody (r : Response)       (* json.Marshal(Response{...}) *)
| NoBody.

Record Reply := mkReply { status : Z; payload : Body }.

Definition StatusOK := 200.
Definition StatusNoContent := 204.
Definition StatusBadRequest := 400.
Definition StatusUnauthorized := 401.
Definition StatusNotFound := 404.
Definition StatusInternalServerError := 500.

Definition sendError (msg : string) (code : Z) : Reply := mkReply code (ErrorBody msg).

(** ** Goroutines *)

(** Program points, named after the source line they execute.  [L99w]
    and [L181w] are the parked half of [cond.Wait]; [Ret] is a handler
    that returned, [Fault] one stopped by a run-time error of [sync]. *)
Inductive Label :=
(* handleReservation *)
| L83 | L84 | L85 | L92 | L97 | L98 | L99 | L99w | L101 | L102
| L103 | L103v | L108
(* handleUpdate *)
| L114 | L116 | L117 | L121 | L131 | L132 | L133 | L135 | L139 | L144
| L146 | L147 | L148 | L151
(* handleSet *)
| L159 | L161 | L162 | L167 | L168 | L169 | L171 | L173 | L175 | L177
| L180 | L181 | L181w | L184 | L185 | L187 | L189 | L194
| Ret | Fault.

Global Instance Label_eq_dec : EqDecision Label.
Proof. solve_decision. Defined.

(** A goroutine serving one request: its program point, the request as
    the router and [ioutil.ReadAll] deliver it ([body = None] is a read
    error, [release = None] a query without that parameter), the locals
    of the handler, and what it wrote to the [ResponseWriter]. *)
Record Thread := mkThread {
  pc : Label;
  key : string;
  lock_id : string;
  body : option string;
  release : option (list string);
  ok : bool;
  fresh : string;
  r_lockID : string;
  r_value : string;
  reply : option Reply
}.

Definition at_pc (l : Label) (t : Thread) : Thread :=
  mkThread l (key t) (lock_id t) (body t) (release t) (ok t) (fresh t)
           (r_lockID t) (r_value t) (reply t).

Definition with_ok (b : bool) (t : Thread) : Thread :=
  mkThread (pc t) (key t) (lock_id t) (body t) (release t) b (fresh t)
           (r_lockID t) (r_value t) (reply t).

Definition with_fresh (s : string) (t : Thread) : Thread :=
  mkThread (pc t) (key t) (lock_id t) (body t) (release t) (ok t) s
           (r_lockID t) (r_value t) (reply t).

Definition with_r_lockID (s : string) (t : Thread) : Thread :=
  mkThread (pc t) (key t) (lock_id t) (body t) (release t) (ok t) (fresh t)
           s (r_value t) (reply t).

Definition with_r_value (s : string) (t : Thread) : Thread :=
  mkThread (pc t) (key t) (lock_id t) (body t) (release t) (ok t) (fresh t)
           (r_lockID t) s (reply t).

Definition with_reply (r : Reply) (t : Thread) : Thread :=
  mkThread (pc t) (key t) (lock_id t) (body t) (release t) (ok t) (fresh t)
           (r_lockID t) (r_value t) (Some r).

(** The goroutine the router starts for each route. *)
Definition spawn (l : Label) (k tok : string) (b : option string)
    (rel : option (list string)) : Thread :=
  mkThread l k tok b rel false "" "" "" None.

Definition goReservation (k : string) : Thread := spawn L83 k "" None None.
Definition goUpdate (k tok : string) (b : option string)
    (rel : option (list string)) : Thread := spawn L114 k tok b rel.
Definition goSet (k : string) (b : option string) : Thread := spawn L159 k "" b None.

(** ** Shared-memory primitives *)

Definition with_cache (c : Cache) (w : World) : World := mkWorld c (urandom w).

Definition with_storage (m : gmap string Entry) (w : World) : World :=
  with_cache (mkCache (wlocked (cache w)) (readers (cache w)) m) w.

Definition entry_of (k : string) (w : World) : option Entry := storage (cache w) !! k.

(** A store through the entry pointer. *)
Definition put_entry (k : string) (e : Entry) (w : World) : World :=
  with_storage (<[k := e]> (storage (cache w))) w.

(** One transition either moves the goroutine, or finds it blocked on a
    lock or parked, or finds it already finished. *)
Inductive Outcome :=
| Stepped (t : Thread) (w : World)
| Blocked
| Halted.

(** [sync.RWMutex] of the cache.  Unlocking a mutex that is not
    write-locked is a run-time error; a locked mutex is not tied to the
    goroutine that locked it, so [Unlock] releases whoever's lock it is.
    The priority Go gives to a writer that is already waiting only
    removes interleavings and is left out. *)
Definition cache_RLock (w : World) : option World :=
  if wlocked (cache w) then None
  else Some (with_cache (mkCache false (S (readers (cache w))) (storage (cache w))) w).

Definition cache_RUnlock (w : World) : World :=
  with_cache (mkCache (wlocked (cache w)) (Nat.pred (readers (cache w))) (storage (cache w))) w.

Definition cache_Lock (w : World) : option World :=
  if wlocked (cache w) then None
  else match readers (cache w) with
       | O => Some (with_cache (mkCache true O (storage (cache w))) w)
       | S _ => None
       end.

Definition cache_Unlock (w : World) : option World :=
  if wlocked (cache w)
  then Some (with_cache (mkCache false (readers (cache w)) (storage (cache w))) w)
  else None.

(** [entry.Lock()] and [entry.Unlock()]. *)
Definition entry_Lock (e : Entry) : option Entry :=
  if held e then None else Some (mkEntry true (cond e) (value e) (lockID e)).

Definition entry_Unlock (e : Entry) : option Entry :=
  if held e then Some (mkEntry false (cond e) (value e) (lockID e)) else None.

(** [entry.cond.Wait()]: enqueue, unlock, park; once woken, re-lock. *)
Definition cond_Wait (tid : nat) (e : Entry) : Entry :=
  mkEntry false (cond e ++ [tid])%list (value e) (lockID e).

Definition cond_Wake (tid : nat) (e : Entry) : option Entry :=
  if bool_decide (tid ∈ cond e) then None else entry_Lock e.

(** [entry.cond.Broadcast()]: every parked goroutine becomes runnable. *)
Definition cond_Broadcast (e : Entry) : Entry :=
  mkEntry (held e) [] (value e) (lockID e).

Definition set_lockID (s : string) (e : Entry) : Entry :=
  mkEntry (held e) (cond e) (value e) s.

Definition set_value (s : string) (e : Entry) : Entry :=
  mkEntry (held e) (cond e) s (lockID e).

(** [uuid()] against the shared random device. *)
Definition uuid (w : World) : string * World :=
  (fst (Uuid.uuid (urandom w)), mkWorld (cache w) (snd (Uuid.uuid (urandom w)))).

(** ** One statement of a handler *)

(** Access to the entry behind the local pointer [entry]; the pointer is
    non-nil wherever the handlers dereference it, a nil one would fault. *)
Definition on_entry (t : Thread) (w : World) (f : Entry → Outcome) : Outcome :=
  match entry_of (key t) w with
  | Some e => f e
  | None => Stepped (at_pc Fault t) w
  end.

Definition goto (l : Label) (t : Thread) (w : World) : Outcome := Stepped (at_pc l t) w.

Definition respond (r : Reply) (l : Label) (t : Thread) (w : World) : Outcome :=
  Stepped (at_pc l (with_reply r t)) w.

(** The second result of a map index expression [v, ok := m[k]]. *)
Definition comma_ok {A} (o : option A) : bool :=
  match o with Some _ => true | None => false end.

(** [len(release) > 0 && release[0] == "true"] *)
Definition wants_release (rel : option (list string)) : bool :=
  match rel with
  | Some (r0 :: _) => bool_decide (r0 = "true")
  | _ => false
  end.

Definition step (tid : nat) (t : Thread) (w : World) : Outcome :=
  match pc t with
  (* ---- handleReservation ---- *)
  | L83 =>                                     (* self.cache.RLock() *)
      match cache_RLock w with Some w' => goto L84 t w' | None => Blocked end
  | L84 =>                                     (* entry, ok := self.cache.storage[key] *)
      goto L85 (with_ok (comma_ok (entry_of (key t) w)) t) w
  | L85 => goto L92 t (cache_RUnlock w)        (* self.cache.RUnlock() *)
  | L92 =>                                     (* if !ok { sendError; return } *)
      if ok t then goto L97 t w
      else respond (sendError "Unable to claim lock on non-existent key" StatusNotFound) Ret t w
  | L97 =>                                     (* entry.Lock() *)
      on_entry t w (λ e,
        match entry_Lock e with
        | Some e' => goto L98 t (put_entry (key t) e' w)
        | None => Blocked
        end)
  | L98 =>                                     (* for entry.lockID != "" *)
      on_entry t w (λ e,
        if bool_decide (lockID e = "") then goto L101 t w else goto L99 t w)
  | L99 =>                                     (* entry.cond.Wait() *)
      on_entry t w (λ e, goto L99w t (put_entry (key t) (cond_Wait tid e) w))
  | L99w =>
      on_entry t w (λ e,
        match cond_Wake tid e with
        | Some e' => goto L98 t (put_entry (key t) e' w)
        | None => Blocked
        end)
  | L101 =>                                    (* entry.lockID = uuid() *)
      let '(tok, w1) := uuid w in
      on_entry t w1 (λ e, goto L102 t (put_entry (key t) (set_lockID tok e) w1))
  | L102 =>                                    (* entry.Unlock() *)
      on_entry t w (λ e,
        match entry_Unlock e with
        | Some e' => goto L103 t (put_entry (key t) e' w)
        | None => goto Fault t w
        end)
  | L103 =>                                    (* Response{entry.lockID, ... *)
      on_entry t w (λ e, goto L103v (with_r_lockID (lockID e) t) w)
  | L103v =>                                   (* ... entry.value} *)
      on_entry t w (λ e, goto L108 (with_r_value (value e) t) w)
  | L108 =>                                    (* res.Write(data) *)
      respond (mkReply StatusOK (JsonBody (mkResponse (r_lockID t) (r_value t)))) Ret t w
  (* ---- handleUpdate ---- *)
  | L114 =>                                    (* body, err := ioutil.ReadAll(req.Body) *)
      match body t with Some _ => goto L121 t w | None => goto L116 t w end
  | L116 =>
      respond (sendError "Unable to read the body of the set request"
                 StatusInternalServerError) L117 t w
  | L117 =>                                    (* self.cache.Unlock(); return *)
      match cache_Unlock w with Some w' => goto Ret t w' | None => goto Fault t w end
  | L121 =>                                    (* release, ok := req.URL.Query()["release"] *)
      match release t with
      | Some _ => goto L131 t w
      | None => respond (sendError "release is a required query parameter [ true || false ]"
                           StatusBadRequest) Ret t w
      end
  | L131 =>                                    (* self.cache.RLock() *)
      match cache_RLock w with Some w' => goto L132 t w' | None => Blocked end
  | L132 => goto L133 (with_ok (comma_ok (entry_of (key t) w)) t) w
  | L133 => goto L135 t (cache_RUnlock w)      (* self.cache.RUnlock() *)
  | L135 =>
      if ok t then goto L139 t w
      else respond (sendError "This key hasn't been created" StatusNotFound) Ret t w
  | L139 =>                                    (* if entry.lockID != lockID *)
      on_entry t w (λ e,
        if bool_decide (lockID e = lock_id t) then goto L144 t w
        else respond (sendError "Your lock id isn't consistent with the currently held lock"
                        StatusUnauthorized) Ret t w)
  | L144 =>                                    (* entry.value = string(body) *)
      on_entry t w (λ e,
        goto L146 t (put_entry (key t) (set_value (default "" (body t)) e) w))
  | L146 => if wants_release (release t) then goto L147 t w else goto L151 t w
  | L147 =>                                    (* entry.cond.Broadcast() *)
      on_entry t w (λ e, goto L148 t (put_entry (key t) (cond_Broadcast e) w))
  | L148 =>                                    (* entry.lockID = "" *)
      on_entry t w (λ e, goto L151 t (put_entry (key t) (set_lockID "" e) w))
  | L151 =>                                    (* res.WriteHeader(http.StatusNoContent) *)
      respond (mkReply StatusNoContent NoBody) Ret t w
  (* ---- handleSet ---- *)
  | L159 =>
      match body t with Some _ => goto L167 t w | None => goto L161 t w end
  | L161 =>
      respond (sendError "Unable to read the body of the set request"
                 StatusInternalServerError) L162 t w
  | L162 =>                                    (* self.cache.Unlock(); return *)
      match cache_Unlock w with Some w' => goto Ret t w' | None => goto Fault t w end
  | L167 =>                                    (* self.cache.Lock() *)
      match cache_Lock w with Some w' => goto L168 t w' | None => Blocked end
  | L168 => goto L169 (with_ok (comma_ok (entry_of (key t) w)) t) w
  | L169 => if ok t then goto L175 t w else goto L171 t w
  | L171 =>                                    (* entry = new(Entry); entry.lockID = uuid() *)
      let '(tok, w1) := uuid w in goto L173 (with_fresh tok t) w1
  | L173 =>                                    (* self.cache.storage[key] = entry *)
      goto L175 t (put_entry (key t) (mkEntry false [] "" (fresh t)) w)
  | L175 =>                                    (* self.cache.Unlock() *)
      match cache_Unlock w with Some w' => goto L177 t w' | None => goto Fault t w end
  | L177 =>                                    (* entry.Lock() *)
      on_entry t w (λ e,
        match entry_Lock e with
        | Some e' => goto L180 t (put_entry (key t) e' w)
        | None => Blocked
        end)
  | L180 =>                                    (* for ok && entry.lockID != "" *)
      on_entry t w (λ e,
        if ok t && negb (bool_decide (lockID e = "")) then goto L181 t w else goto L184 t w)
  | L181 =>                                    (* entry.cond.Wait() *)
      on_entry t w (λ e, goto L181w t (put_entry (key t) (cond_Wait tid e) w))
  | L181w =>
      on_entry t w (λ e,
        match cond_Wake tid e with
        | Some e' => goto L180 t (put_entry (key t) e' w)
        | None => Blocked
        end)
  | L184 =>                                    (* entry.lockID = uuid() *)
      let '(tok, w1) := uuid w in
      on_entry t w1 (λ e, goto L185 t (put_entry (key t) (set_lockID tok e) w1))
  | L185 =>                                    (* entry.value = string(body) *)
      on_entry t w (λ e,
        goto L187 t (put_entry (key t) (set_value (default "" (body t)) e) w))
  | L187 =>                                    (* entry.Unlock() *)
      on_entry t w (λ e,
        match entry_Unlock e with
        | Some e' => goto L189 t (put_entry (key t) e' w)
        | None => goto Fault t w
        end)
  | L189 =>                                    (* Response{entry.lockID, ""} *)
      on_entry t w (λ e, goto L194 (with_r_lockID (lockID e) t) w)
  | L194 =>                                    (* res.Write(data) *)
      respond (mkReply StatusOK (JsonBody (mkResponse (r_lockID t) ""))) Ret t w
  | Ret | Fault => Halted
  end.

(** ** A handler running alone *)

(** The statements a goroutine executes when no other goroutine is
    scheduled, until it returns, faults or cannot move; the labels it
    went through are its control-flow path. *)
Fixpoint run (fuel : nat) (tid : nat) (t : Thread) (w : World)
    : list Label * Thread * World :=
  match fuel with
  | O => ([], t, w)
  | S n =>
      match step tid t w with
      | Stepped t' w' =>
          let '(path, t'', w'') := run n tid t' w' in (pc t :: path, t'', w'')
      | Blocked | Halted => ([], t, w)
      end
  end.

(** No handler has more than 20 statements on a path without a wait. *)
Definition budget : nat := 24.

Definition handleReservation (tid : nat) (k : string) (w : World) :=
  run budget tid (goReservation k) w.

Definition handleUpdate (tid : nat) (k tok : string) (b : option string)
    (rel : option (list string)) (w : World) :=
  run budget tid (goUpdate k tok b rel) w.

Definition handleSet (tid : nat) (k : string) (b : option string) (w : World) :=
  run budget tid (goSet k b) w.

(** ** The server: goroutines interleaved by a scheduler *)

Record Config := mkConfig {
  threads : list Thread;
  world : World
}.

(** The scheduler picks goroutine [tid]; a pick of a goroutine that is
    blocked, finished or does not exist leaves the configuration as is. *)
Definition sched (tid : nat) (c : Config) : Config :=
  match threads c !! tid with
  | Some t =>
      match step tid t (world c) with
      | Stepped t' w' => mkConfig (<[tid := t']> (threads c)) w'
      | Blocked | Halted => c
      end
  | None => c
  end.

Definition schedule (picks : list nat) (c : Config) : Config :=
  foldl (λ c tid, sched tid c) c picks.

(** [NewServer]: an empty map, no lock taken. *)
Definition NewServer (dev : list (list Z)) : World :=
  mkWorld (mkCache false O ∅) dev.

(** ** A run of the server used in the examples below *)

Module Scenario.

Definition dev : list (list Z) := [[1]; [2]; [3]; [4]; [5]; [6]].

(** The server after [PUT /values/foo] with body ["hello"]: the key is
    locked under [tokA]. *)
Definition after_set : World :=
  snd (handleSet 0 "foo" (Some "hello") (NewServer dev)).

Definition tokA : string := "02000000-0000-4000-8000-000000000000".
Definition tokB : string := "03000000-0000-4000-8000-000000000000".
Definition tokC : string := "04000000-0000-4000-8000-000000000000".

Definition locked_foo : Entry := mkEntry false [] "hello" tokA.

(** Four requests in flight on that server: the holder of [tokA] sends
    its releasing update twice (goroutines 0 and 1), and two other
    clients reserve the key (goroutines 2 and 3). *)
Definition racing : Config :=
  mkConfig [goUpdate "foo" tokA (Some "a") (Some ["true"]);
            goUpdate "foo" tokA (Some "b") (Some ["true"]);
            goReservation "foo";
            goReservation "foo"] after_set.

(** Both updates pass the token test of line 139; the first one
    releases; goroutine 2 reserves; the second update then writes and
    releases; goroutine 3 reserves. *)
Definition interleaving : list nat :=
  (replicate 7 0 ++ replicate 7 1 ++ replicate 5 0 ++ replicate 11 2 ++
   replicate 5 1 ++ replicate 11 3)%nat%list.

(** The same server while another goroutine is inside the entry's
    mutex. *)
Definition entry_mutex_taken : World :=
  put_entry "foo" (mkEntry true [] "hello" tokA) after_set.

(** The same server while another goroutine holds the cache's write
    lock. *)
Definition cache_write_locked : World :=
  with_cache (mkCache true O (storage (cache after_set))) after_set.

End Scenario.

(** Which handler a program point belongs to (lines 78-109, 112-152 and
    155-195 of main.go). *)
Inductive Handler := Reservation | Update | Set_.

Definition handler_of (l : Label) : option Handler :=
  match l with
  | L83 | L84 | L85 | L92 | L97 | L98 | L99 | L99w | L101 | L102
  | L103 | L103v | L108 => Some Reservation
  | L114 | L116 | L117 | L121 | L131 | L132 | L133 | L135 | L139 | L144
  | L146 | L147 | L148 | L151 => Some Update
  | L159 | L161 | L162 | L167 | L168 | L169 | L171 | L173 | L175 | L177
  | L180 | L181 | L181w | L184 | L185 | L187 | L189 | L194 => Some Set_
  | Ret | Fault => None
  end.

(** The statements that are [self.cache.Lock()] and [self.cache.Unlock()]. *)
Definition is_cache_Lock (l : Label) : bool := bool_decide (l = L167).
Definition is_cache_Unlock (l : Label) : bool := bool_decide (l ∈ [L117; L162; L175]).

(** Nobody holds the cache lock, in either mode. *)
Definition cache_free (w : World) : Prop :=
  wlocked (cache w) = false ∧ readers (cache w) = O.

(** What [self.cache.Unlock()] makes of the cache when the caller never
    locked it: the writer flag is cleared whoever set it. *)
Definition cache_unlocked (w : World) : World :=
  with_cache (mkCache false (readers (cache w)) (storage (cache w))) w.

(** No goroutine of the pool is, or will be, a [handleSet] on key [k]:
    [set] is never called on [k]. *)
Definition never_set (k : string) (ts : list Thread) : Prop :=
  Forall (λ t, handler_of (pc t) = Some Set_ → key t ≠ k) ts.

(** ** Vocabulary of the further properties *)

(** A reservation parked in [cond.Wait] at line 99, and a [set] parked at
    line 181: the goroutines [handleReservation] and [handleSet] become
    when they find the key locked. *)
Definition parked_reservation (k : string) : Thread :=
  mkThread L99w k "" None None true "" "" "" None.

Definition parked_set (k : string) (b : option string) : Thread :=
  mkThread L181w k "" b None true "" "" "" None.

(** The two assignments of [uuid] that fix the version and variant bits
    (lines 241-242), on their own. *)
Definition stamp (b : list Z) : list Z :=
  alter (λ x, Z.lor (Z.land x 63) 128) 8%nat
    (alter (λ x, Z.lor (Z.land x 15) 64) 6%nat b).

(** Between [self.cache.Lock()] and [self.cache.Unlock()] (lines 167-175). *)
Definition in_wcs (l : Label) : bool :=
  match l with L168 | L169 | L171 | L173 | L175 => true | _ => false end.

(** Between [entry.Lock()] and [entry.Unlock()] (lines 97-102, 177-187). *)
Definition in_ecs (l : Label) : bool :=
  match l with
  | L98 | L99 | L101 | L102 | L180 | L181 | L184 | L185 | L187 => true
  | _ => false
  end.

(** The local [entry] is a pointer the goroutine got from the map. *)
Definition has_ptr (t : Thread) : bool :=
  match pc t with
  | L85 | L92 | L133 | L135 | L169 => ok t
  | L97 | L98 | L99 | L99w | L101 | L102 | L103 | L103v
  | L139 | L144 | L146 | L147 | L148
  | L175 | L177 | L180 | L181 | L181w | L184 | L185 | L187 | L189 => true
  | _ => false
  end.

(** The goroutine found the key absent and is about to insert it. *)
Definition creating (t : Thread) : bool :=
  match pc t with
  | L169 => negb (ok t)
  | L171 | L173 => true
  | _ => false
  end.

(** Not on the body-read error path, and not stopped by a run-time error. *)
Definition readable (t : Thread) : bool :=
  match pc t with
  | L114 | L159 => match body t with Some _ => true | None => false end
  | L116 | L117 | L161 | L162 | Fault => false
  | _ => true
  end.

(** What a goroutine's program point says about the shared memory. *)
Definition good (t : Thread) (w : World) : Prop :=
  readable t = true
  ∧ (in_wcs (pc t) = true → wlocked (cache w) = true)
  ∧ (in_ecs (pc t) = true → held <$> entry_of (key t) w = Some true)
  ∧ (has_ptr t = true → is_Some (entry_of (key t) w))
  ∧ (creating t = true → entry_of (key t) w = None).

(** Every goroutine agrees with the memory, and the critical sections of
    the cache lock and of each entry's mutex hold one goroutine at most. *)
Definition safe (c : Config) : Prop :=
  (∀ j tj, threads c !! j = Some tj → good tj (world c))
  ∧ (∀ i j ti tj, i ≠ j → threads c !! i = Some ti → threads c !! j = Some tj →
       in_wcs (pc ti) = true → in_wcs (pc tj) = true → False)
  ∧ (∀ i j ti tj, i ≠ j → threads c !! i = Some ti → threads c !! j = Some tj →
       key ti = key tj → in_ecs (pc ti) = true → in_ecs (pc tj) = true → False).

(** A request as the router hands it to a handler, its body readable. *)
Definition request (t : Thread) : Prop :=
  (∃ k, t = goReservation k)
  ∨ (∃ k tok b rel, t = goUpdate k tok (Some b) rel)
  ∨ (∃ k b, t = goSet k (Some b)).

(** Goroutines that are inside one handler, or have stopped. *)
Definition only_reserving (t : Thread) : Prop :=
  handler_of (pc t) = Some Reservation ∨ handler_of (pc t) = None.

Definition only_updating (t : Thread) : Prop :=
  handler_of (pc t) = Some Update ∨ handler_of (pc t) = None.

(** Nobody holds the cache lock nor the mutex of the entry of [k]. *)
Definition at_rest (k : string) (w : World) : Prop :=
  cache_free w ∧ ∀ e, entry_of k w = Some e → held e = false.

(** * Properties *)

(** Symbolic execution of a handler: unfold the transitions, then feed
    the facts known about the map. *)
Ltac unfold_run :=
  cbv [handleReservation handleUpdate handleSet budget
       run step pc key lock_id body release ok fresh r_lockID r_value reply
       at_pc with_ok with_fresh with_r_lockID with_r_value with_reply
       spawn goReservation goUpdate goSet on_entry goto respond
       cache_RLock cache_RUnlock cache_Lock cache_Unlock entry_Lock entry_Unlock
       cond_Wait cond_Wake cond_Broadcast set_lockID set_value uuid
       with_cache with_storage entry_of put_entry
       cache urandom wlocked readers storage held cond value lockID
       Nat.pred default wants_release comma_ok andb negb fst snd].

Ltac red1 := cbv beta iota zeta.

Ltac open_world w :=
  destruct w as [[?wl ?rd ?st] ?dev];
  cbv [cache_free entry_of cache wlocked readers storage urandom] in *.

Lemma run_S (n tid : nat) (t : Thread) (w : World) :
  run (S n) tid t w =
  match step tid t w with
  | Stepped t' w' => let '(path, t'', w'') := run n tid t' w' in (pc t :: path, t'', w'')
  | Blocked | Halted => ([], t, w)
  end.
Proof. reflexivity. Qed.

Section Tokens.

Lemma append_cons_nonempty (s1 s2 : string) (c : ascii) :
  (s1 ++ String c s2 ≠ "")%string.
Proof. destruct s1; discriminate. Qed.

(** [uuid] never returns the empty string: the result has hyphens. *)
Lemma format_nonempty (b : list Z) : Uuid.format b ≠ "".
Proof. unfold Uuid.format. cbv zeta. apply append_cons_nonempty. Qed.

Lemma uuid_nonempty (dev : list (list Z)) : fst (Uuid.uuid dev) ≠ "".
Proof. destruct dev; apply format_nonempty. Qed.

End Tokens.

Example uuid_zero : fst (Uuid.uuid []) = "00000000-0000-4000-8000-000000000000".
Proof. reflexivity. Qed.

Example uuid_ff :
  fst (Uuid.uuid [replicate 16 255]) = "ffffffff-ffff-4fff-bfff-ffffffffffff".
Proof. reflexivity. Qed.

(** The version and variant bits survive any input: 0x12 in byte 6 and
    0x7f in byte 8 come out as 0x42 and 0xbf. *)
Example uuid_bits :
  fst (Uuid.uuid [[1; 2; 3; 4; 5; 6; 18; 7; 127; 9; 10; 11; 12; 13; 14; 15]])
  = "01020304-0506-4207-bf09-0a0b0c0d0e0f".
Proof. reflexivity. Qed.

(** ** Token gating *)

(** C2: an update of a present key whose token differs from the entry's
    current lockID answers 401 Unauthorized and leaves the whole shared
    memory as it was: value, lockID and the parked waiters of the entry
    are untouched. *)
Theorem update_rejects_bad_token (tid : nat) (k tok v : string)
    (rel : list string) (w : World) (e : Entry) :
  wlocked (cache w) = false →
  entry_of k w = Some e →
  lockID e ≠ tok →
  ∃ t', handleUpdate tid k tok (Some v) (Some rel) w
          = ([L114; L121; L131; L132; L133; L135; L139], t', w)
        ∧ pc t' = Ret
        ∧ reply t' = Some (sendError
            "Your lock id isn't consistent with the currently held lock"
            StatusUnauthorized).
Proof.
  open_world w. intros -> He Hne.
  unfold_run. rewrite !He. red1.
  rewrite bool_decide_false by done. red1.
  eexists. split; [reflexivity|]. split; reflexivity.
Qed.

(** ** Reservations never create entries *)

Lemma put_entry_dom (k : string) (e e' : Entry) (w : World) :
  entry_of k w = Some e →
  dom (storage (cache (put_entry k e' w))) = dom (storage (cache w)).
Proof.
  open_world w. intros He. cbv [put_entry with_storage with_cache cache storage].
  apply dom_insert_lookup_L. by rewrite He.
Qed.

(** No statement of [handleReservation] changes the set of keys,
    whatever the other goroutines have done to the shared memory. *)
Lemma reservation_step_dom (tid : nat) (t t' : Thread) (w w' : World) :
  handler_of (pc t) = Some Reservation →
  step tid t w = Stepped t' w' →
  dom (storage (cache w')) = dom (storage (cache w)).
Proof.
  intros Hh Hs. destruct t as [l k tok b rel o f rl rv rp].
  cbv [pc] in Hh.
  destruct l; try discriminate Hh; clear Hh;
    cbv [step pc key ok on_entry goto respond uuid cache_RLock cache_RUnlock] in Hs;
    repeat case_match; simplify_eq; try reflexivity;
    try (erewrite put_entry_dom; [reflexivity | eassumption]).
Qed.

Ltac step_cases Hs :=
  cbv [step pc key ok body release fresh on_entry goto respond uuid
       cache_RLock cache_RUnlock cache_Lock cache_Unlock at_pc with_ok with_fresh
       with_r_lockID with_r_value with_reply lock_id r_lockID r_value reply] in Hs;
  repeat case_match; simplify_eq.

(** A goroutine keeps its key and stays in its handler until it stops. *)
Lemma step_key (tid : nat) (t t' : Thread) (w w' : World) :
  step tid t w = Stepped t' w' → key t' = key t.
Proof.
  intros Hs. destruct t as [l k tok b rel o f rl rv rp].
  destruct l; step_cases Hs; reflexivity.
Qed.

Lemma step_handler (tid : nat) (t t' : Thread) (w w' : World) :
  step tid t w = Stepped t' w' →
  handler_of (pc t') = handler_of (pc t) ∨ handler_of (pc t') = None.
Proof.
  intros Hs. destruct t as [l k tok b rel o f rl rv rp].
  destruct l; step_cases Hs; cbn; auto.
Qed.

Lemma entry_of_put_entry_ne (k k' : string) (e : Entry) (w : World) :
  k ≠ k' → entry_of k (put_entry k' e w) = entry_of k w.
Proof.
  intros Hne. cbv [entry_of put_entry with_storage with_cache cache storage].
  by apply lookup_insert_ne.
Qed.

(** Only line 173 of a [handleSet] on [k] can make [k] appear. *)
Lemma step_absent (tid : nat) (k : string) (t t' : Thread) (w w' : World) :
  entry_of k w = None →
  (handler_of (pc t) = Some Set_ → key t ≠ k) →
  step tid t w = Stepped t' w' →
  entry_of k w' = None.
Proof.
  intros He Hset Hs. destruct t as [l k' tok b rel o f rl rv rp].
  cbn [pc key] in Hset.
  assert (∀ e e1 w1, entry_of k w1 = None → entry_of k' w1 = Some e →
                     entry_of k (put_entry k' e1 w1) = None) as Hput.
  { intros e e1 w1 H1 H2. rewrite entry_of_put_entry_ne; [done |]. congruence. }
  destruct l; step_cases Hs; try exact He; try (eapply Hput; eassumption).
  all: try (destruct w as [[? ? ?] ?]; exact He).
  rewrite entry_of_put_entry_ne; [exact He |].
  intros ->. by apply Hset.
Qed.

Lemma sched_absent (k : string) (tid : nat) (c : Config) :
  entry_of k (world c) = None →
  never_set k (threads c) →
  entry_of k (world (sched tid c)) = None ∧ never_set k (threads (sched tid c)).
Proof.
  intros He Hns. unfold sched.
  destruct (threads c !! tid) as [t |] eqn:Ht; [| done].
  destruct (step tid t (world c)) as [t' w' | |] eqn:Hs; [| done | done].
  assert (handler_of (pc t) = Some Set_ → key t ≠ k) as Hset.
  { unfold never_set in Hns. rewrite Forall_lookup in Hns. by apply (Hns tid). }
  cbn [world threads]. split.
  - by eapply step_absent.
  - apply Forall_insert; [exact Hns |].
    intros Hh. rewrite (step_key _ _ _ _ _ Hs).
    destruct (step_handler _ _ _ _ _ Hs) as [Heq | Heq]; [| congruence].
    apply Hset. congruence.
Qed.

(** While [set] is never called on [k], no interleaving makes it appear. *)
Lemma schedule_absent (k : string) (picks : list nat) (c : Config) :
  entry_of k (world c) = None →
  never_set k (threads c) →
  entry_of k (world (schedule picks c)) = None.
Proof.
  revert c. induction picks as [| tid picks IH]; intros c He Hns; [exact He |].
  destruct (sched_absent k tid c He Hns) as [He' Hns'].
  exact (IH _ He' Hns').
Qed.

(** C5: a reservation of a key that is absent from the map answers 404
    NotFound and leaves the shared memory, and so the key-to-entry
    mapping, as it was; no statement of the reservation handler ever adds
    a key, in any interleaving; and a key on which [set] is never called
    stays absent from a new server's map whatever the other requests. *)
Theorem reserve_absent_not_found (tid : nat) (k : string) (w : World) :
  wlocked (cache w) = false →
  entry_of k w = None →
  (∃ t', handleReservation tid k w = ([L83; L84; L85; L92], t', w)
         ∧ pc t' = Ret
         ∧ reply t' = Some (sendError "Unable to claim lock on non-existent key"
                              StatusNotFound))
  ∧ (∀ tid' t t' w1 w1',
        handler_of (pc t) = Some Reservation →
        step tid' t w1 = Stepped t' w1' →
        dom (storage (cache w1')) = dom (storage (cache w1)))
  ∧ (∀ dev ts picks,
        never_set k ts →
        entry_of k (world (schedule picks (mkConfig ts (NewServer dev)))) = None).
Proof.
  intros Hw He. split; [| split; [apply reservation_step_dom |]].
  2: { intros dev ts picks Hns. by apply schedule_absent. }
  open_world w. subst wl.
  unfold_run. rewrite !He. red1.
  eexists. split; [reflexivity|]. split; reflexivity.
Qed.

(** ** Requests the update handler refuses before looking at the map *)


(** ** The body-read error path *)

(** The only statement that takes the cache's write lock is line 167. *)
Lemma write_lock_taken_at_L167 (tid : nat) (t t' : Thread) (w w' : World) :
  step tid t w = Stepped t' w' →
  wlocked (cache w) = false →
  wlocked (cache w') = true →
  pc t = L167.
Proof.
  intros Hs Hw Hw'. destruct t as [l k tok b rel o f rl rv rp].
  open_world w.
  destruct l; try reflexivity; exfalso;
    cbv [step pc key ok body release on_entry goto respond uuid cache_RLock
         cache_RUnlock cache_Unlock put_entry with_storage with_cache
         cache wlocked readers storage urandom] in Hs;
    repeat case_match; simplify_eq; cbv [cache wlocked] in Hw'; congruence.
Qed.

(** C9: when the body cannot be read, [handleUpdate] and [handleSet]
    answer 500 and then execute [self.cache.Unlock()] (lines 117 and 162)
    although neither has taken that lock: if nobody holds it the unlock
    is a run-time error, and if another goroutine holds it that lock is
    released under it.  No statement of [handleUpdate] takes the write
    lock, and [handleSet] takes it at line 167, after a successful read. *)
Theorem body_error_unlocks_cache (tid : nat) (k tok : string)
    (rel : option (list string)) (w : World) :
  (∃ t', handleUpdate tid k tok None rel w
           = ([L114; L116; L117], t',
              if wlocked (cache w) then cache_unlocked w else w)
         ∧ pc t' = (if wlocked (cache w) then Ret else Fault)
         ∧ reply t' = Some (sendError "Unable to read the body of the set request"
                              StatusInternalServerError))
  ∧ (∃ t', handleSet tid k None w
           = ([L159; L161; L162], t',
              if wlocked (cache w) then cache_unlocked w else w)
         ∧ pc t' = (if wlocked (cache w) then Ret else Fault)
         ∧ reply t' = Some (sendError "Unable to read the body of the set request"
                              StatusInternalServerError))
  ∧ is_cache_Unlock L117 = true ∧ is_cache_Unlock L162 = true
  ∧ (∀ l, l ∈ [L114; L116; L159; L161] → is_cache_Lock l = false)
  ∧ (∀ tid' t t' w1 w1',
        handler_of (pc t) = Some Update →
        step tid' t w1 = Stepped t' w1' →
        wlocked (cache w1) = false → wlocked (cache w1') = false)
  ∧ (∀ v, ∃ p t' w', handleSet tid k (Some v) w = (p, t', w')
        ∧ (L167 ∈ p → ∃ q, p = L159 :: L167 :: q)).
Proof.
  split; [| split; [| split; [| split; [| split; [| split]]]]].
  - open_world w. unfold_run. cbv [cache_unlocked with_cache cache wlocked readers storage urandom].
    destruct wl; red1; eexists; (split; [reflexivity|]); split; reflexivity.
  - open_world w. unfold_run. cbv [cache_unlocked with_cache cache wlocked readers storage urandom].
    destruct wl; red1; eexists; (split; [reflexivity|]); split; reflexivity.
  - reflexivity.
  - reflexivity.
  - intros l Hl.
    repeat (apply elem_of_cons in Hl as [-> | Hl]); try reflexivity.
    by apply elem_of_nil in Hl.
  - intros tid' t t' w1 w1' Hh Hs Hw.
    destruct (wlocked (cache w1')) eqn:Hw'; [| reflexivity].
    rewrite (write_lock_taken_at_L167 _ _ _ _ _ Hs Hw Hw') in Hh. discriminate.
  - intros v. destruct (handleSet tid k (Some v) w) as [[p t'] w'] eqn:Hr.
    exists p, t', w'. split; [reflexivity|].
    revert Hr. unfold handleSet, budget, goSet, spawn.
    rewrite run_S.
    cbv [step pc body goto at_pc key lock_id release ok fresh r_lockID r_value reply].
    rewrite run_S.
    cbv [step pc body goto at_pc key lock_id release ok fresh r_lockID r_value reply].
    destruct (cache_Lock w) as [w2|].
    + destruct (run _ _ _ _) as [[q t2] w3]. intros [= <- <- <-] _. eauto.
    + intros [= <- <- <-] Hin.
      apply elem_of_cons in Hin as [Hin | Hin]; [discriminate |].
      by apply elem_of_nil in Hin.
Qed.

(** When another goroutine holds the cache's write lock, the 500 path of
    an update releases it. *)
Example body_error_steals_write_lock :
  let r := handleUpdate 5 "foo" Scenario.tokA None (Some ["true"])
             Scenario.cache_write_locked in
  wlocked (cache Scenario.cache_write_locked) = true
  ∧ fst (fst r) = [L114; L116; L117]
  ∧ pc (snd (fst r)) = Ret
  ∧ snd r = Scenario.after_set.
Proof.
  cbv zeta.
  split; [vm_compute; reflexivity |].
  split; [vm_compute; reflexivity |].
  split; vm_compute; reflexivity.
Qed.

(** ** Accepted updates *)

Ltac feed He :=
  repeat (rewrite ?He, ?lookup_insert_eq, ?insert_insert_eq; red1).

(** What an accepted update does, for any value of the [release]
    parameter: the body becomes the value; the lock is dropped and the
    waiters are woken exactly when the first value is ["true"]. *)
Lemma update_accepted (tid : nat) (k tok v : string) (r : list string)
    (w : World) (e : Entry) :
  wlocked (cache w) = false →
  entry_of k w = Some e →
  lockID e = tok →
  ∃ t', handleUpdate tid k tok (Some v) (Some r) w
          = (([L114; L121; L131; L132; L133; L135; L139; L144; L146] ++
              (if wants_release (Some r) then [L147; L148; L151] else [L151]))%list,
             t',
             put_entry k (if wants_release (Some r)
                          then mkEntry (held e) [] v ""
                          else mkEntry (held e) (cond e) v (lockID e)) w)
        ∧ pc t' = Ret
        ∧ reply t' = Some (mkReply StatusNoContent NoBody).
Proof.
  open_world w. intros -> He Htok.
  unfold_run. feed He.
  rewrite bool_decide_true by done. feed He.
  destruct r as [| r0 rest]; feed He.
  - eexists. split; [reflexivity|]. split; reflexivity.
  - destruct (bool_decide (r0 = "true")); feed He;
      eexists; (split; [reflexivity|]); split; reflexivity.
Qed.

(** A reservation of an unlocked, uncontended entry goes straight
    through: it draws a token, stores it and returns it with the value. *)
Lemma reserve_unlocked (tid : nat) (k : string) (w : World) (e : Entry) :
  wlocked (cache w) = false →
  entry_of k w = Some e →
  held e = false →
  lockID e = "" →
  ∃ t', handleReservation tid k w
          = ([L83; L84; L85; L92; L97; L98; L101; L102; L103; L103v; L108], t',
             put_entry k (mkEntry false (cond e) (value e) (fst (uuid w))) (snd (uuid w)))
        ∧ pc t' = Ret
        ∧ reply t' = Some (mkReply StatusOK
                             (JsonBody (mkResponse (fst (uuid w)) (value e)))).
Proof.
  open_world w. destruct e as [h c v l]. cbv [held lockID].
  intros -> He -> ->.
  unfold_run. feed He.
  rewrite bool_decide_true by done. feed He.
  eexists. split; [reflexivity|]. split; reflexivity.
Qed.

(** C6: an accepted update with [release=false] stores the body as the
    value and changes nothing else: the lockID is still the token, the
    entry's mutex and its parked waiters are as before (line 147, the
    broadcast, is not executed), and so is the rest of the memory. *)
Theorem update_without_release_keeps_lock (tid : nat) (k tok v : string)
    (rest : list string) (w : World) (e : Entry) :
  wlocked (cache w) = false →
  entry_of k w = Some e →
  lockID e = tok →
  ∃ t', handleUpdate tid k tok (Some v) (Some ("false" :: rest)) w
          = ([L114; L121; L131; L132; L133; L135; L139; L144; L146; L151], t',
             put_entry k (mkEntry (held e) (cond e) v tok) w)
        ∧ pc t' = Ret
        ∧ reply t' = Some (mkReply StatusNoContent NoBody).
Proof.
  intros Hw He Htok.
  destruct (update_accepted tid k tok v ("false" :: rest) w e Hw He Htok)
    as (t' & Hrun & Hpc & Hrep).
  exists t'. rewrite Hrun, Htok. auto.
Qed.

(** C10: with the parameter present, the key known and the token
    matching, the update always answers 204 and stores the body; only the
    first value of [release] is looked at, and only the exact string
    ["true"] drops the lock.  Any other first value, or none, keeps the
    lockID and wakes nobody. *)
Theorem release_compared_to_true_only (tid : nat) (k tok v : string)
    (r : list string) (w : World) (e : Entry) :
  wlocked (cache w) = false →
  entry_of k w = Some e →
  lockID e = tok →
  (∃ t', handleUpdate tid k tok (Some v) (Some r) w
          = (([L114; L121; L131; L132; L133; L135; L139; L144; L146] ++
              (if bool_decide (head r = Some "true")
               then [L147; L148; L151] else [L151]))%list,
             t',
             put_entry k (if bool_decide (head r = Some "true")
                          then mkEntry (held e) [] v ""
                          else mkEntry (held e) (cond e) v tok) w)
        ∧ pc t' = Ret
        ∧ reply t' = Some (mkReply StatusNoContent NoBody))
  ∧ bool_decide (head ["false"] = Some "true") = false
  ∧ bool_decide (head ["True"] = Some "true") = false
  ∧ bool_decide (head [""] = Some "true") = false
  ∧ bool_decide (head ["TRUE"; "true"] = Some "true") = false
  ∧ bool_decide (head ["true"; "false"] = Some "true") = true.
Proof.
  intros Hw He Htok. split; [| repeat split].
  destruct (update_accepted tid k tok v r w e Hw He Htok)
    as (t' & Hrun & Hpc & Hrep).
  exists t'. rewrite Hrun, Htok.
  assert (wants_release (Some r) = bool_decide (head r = Some "true")) as ->.
  { destruct r as [| r0 rest]; [reflexivity |]. cbn [wants_release head].
    apply bool_decide_ext. split; [intros -> | intros [= ->]]; reflexivity. }
  auto.
Qed.

Lemma entry_of_put_entry (k : string) (e : Entry) (w : World) :
  entry_of k (put_entry k e w) = Some e.
Proof.
  cbv [entry_of put_entry with_storage with_cache cache storage].
  apply lookup_insert_eq.
Qed.

(** ** Release *)

(** C4: when the key is locked under [tok] and nobody is inside the
    entry's mutex, an update with that token and [release=true] answers
    204 and leaves the lockID empty; the reservation that follows takes
    the lock on its first test of the loop (line 99, the wait, is not on
    its path) and returns the value just written with a new token. *)
Theorem release_then_reserve (tid tid' : nat) (k tok v : string)
    (rest : list string) (w : World) (e : Entry) :
  wlocked (cache w) = false →
  entry_of k w = Some e →
  held e = false →
  lockID e = tok →
  ∃ t1 w1 t2 w2,
    handleUpdate tid k tok (Some v) (Some ("true" :: rest)) w
      = ([L114; L121; L131; L132; L133; L135; L139; L144; L146; L147; L148; L151],
         t1, w1)
    ∧ pc t1 = Ret
    ∧ reply t1 = Some (mkReply StatusNoContent NoBody)
    ∧ entry_of k w1 = Some (mkEntry false [] v "")
    ∧ handleReservation tid' k w1
      = ([L83; L84; L85; L92; L97; L98; L101; L102; L103; L103v; L108], t2, w2)
    ∧ pc t2 = Ret
    ∧ reply t2 = Some (mkReply StatusOK (JsonBody (mkResponse (fst (uuid w)) v)))
    ∧ entry_of k w2 = Some (mkEntry false [] v (fst (uuid w))).
Proof.
  intros Hw He Hh Htok.
  destruct (update_accepted tid k tok v ("true" :: rest) w e Hw He Htok)
    as (t1 & Hrun1 & Hpc1 & Hrep1).
  change (wants_release (Some ("true" :: rest))) with true in Hrun1.
  cbn [app] in Hrun1. rewrite Hh in Hrun1.
  set (w1 := put_entry k (mkEntry false [] v "") w) in *.
  assert (entry_of k w1 = Some (mkEntry false [] v "")) as He1
    by apply entry_of_put_entry.
  assert (wlocked (cache w1) = false) as Hw1 by exact Hw.
  destruct (reserve_unlocked tid' k w1 _ Hw1 He1 eq_refl eq_refl)
    as (t2 & Hrun2 & Hpc2 & Hrep2).
  cbn [cond value] in Hrun2, Hrep2.
  eexists t1, w1, t2, _.
  split; [exact Hrun1 |]. split; [exact Hpc1 |]. split; [exact Hrep1 |].
  split; [exact He1 |].
  split; [exact Hrun2 |]. split; [exact Hpc2 |]. split; [exact Hrep2 |].
  apply entry_of_put_entry.
Qed.

(** ** Set *)

(** [set] on a key that is not in the map, with the cache lock free. *)
Lemma set_absent (tid : nat) (k v : string) (w : World) :
  cache_free w →
  entry_of k w = None →
  ∃ t', handleSet tid k (Some v) w
          = ([L159; L167; L168; L169; L171; L173; L175; L177; L180; L184;
              L185; L187; L189; L194], t',
             put_entry k (mkEntry false [] v (fst (uuid (snd (uuid w)))))
               (snd (uuid (snd (uuid w)))))
        ∧ pc t' = Ret
        ∧ reply t' = Some (mkReply StatusOK
            (JsonBody (mkResponse (fst (uuid (snd (uuid w)))) ""))).
Proof.
  open_world w. intros [-> ->] He.
  unfold_run. feed He.
  eexists. split; [reflexivity|]. split; reflexivity.
Qed.


(** A goroutine that has just enqueued itself is parked. *)
Lemma parked_after_wait (tid : nat) (c : list nat) :
  bool_decide (tid ∈ (c ++ [tid])%list) = true.
Proof.
  apply bool_decide_eq_true. apply elem_of_app. right. apply list_elem_of_singleton.
  reflexivity.
Qed.





(** C7: [set] on an absent key inserts the entry already locked under a
    first token drawn by the creator (lines 170-173), goes through the
    loop of line 180 on that lock without executing the wait of line 181,
    and then draws a second token, which is the one it stores with the
    body and returns. *)
Theorem set_creates_prelocked (tid : nat) (k v : string) (w : World) :
  cache_free w →
  entry_of k w = None →
  (∃ t6 w6,
      run 6 tid (goSet k (Some v)) w
        = ([L159; L167; L168; L169; L171; L173], t6, w6)
      ∧ pc t6 = L175
      ∧ entry_of k w6 = Some (mkEntry false [] "" (fst (uuid w))))
  ∧ (∃ t9 w9,
      run 9 tid (goSet k (Some v)) w
        = ([L159; L167; L168; L169; L171; L173; L175; L177; L180], t9, w9)
      ∧ pc t9 = L184
      ∧ entry_of k w9 = Some (mkEntry true [] "" (fst (uuid w))))
  ∧ fst (uuid w) ≠ ""
  ∧ (∃ t' w',
      handleSet tid k (Some v) w
        = ([L159; L167; L168; L169; L171; L173; L175; L177; L180; L184;
            L185; L187; L189; L194], t', w')
      ∧ pc t' = Ret
      ∧ reply t' = Some (mkReply StatusOK
          (JsonBody (mkResponse (fst (uuid (snd (uuid w)))) "")))
      ∧ entry_of k w' = Some (mkEntry false [] v (fst (uuid (snd (uuid w)))))
      ∧ urandom w' = urandom (snd (uuid (snd (uuid w)))))
  ∧ fst (uuid (snd (uuid w))) ≠ "".
Proof.
  intros Hfree He.
  split; [| split; [| split; [| split]]].
  - open_world w. destruct Hfree as [-> ->].
    unfold_run. feed He.
    eexists _, _. split; [reflexivity |]. split; [reflexivity |].
    cbv [entry_of cache storage]. apply lookup_insert_eq.
  - open_world w. destruct Hfree as [-> ->].
    unfold_run. feed He.
    eexists _, _. split; [reflexivity |]. split; [reflexivity |].
    cbv [entry_of cache storage]. apply lookup_insert_eq.
  - apply uuid_nonempty.
  - destruct (set_absent tid k v w Hfree He) as (t' & Hrun & Hpc & Hrep).
    eexists t', _. split; [exact Hrun |]. split; [exact Hpc |].
    split; [exact Hrep |]. split; [apply entry_of_put_entry | reflexivity].
  - apply uuid_nonempty.
Qed.

(** ** Mutual exclusion *)

Lemma held_put_entry (k k' : string) (e e0 e1 : Entry) (w : World) :
  entry_of k w = Some e →
  entry_of k' w = Some e0 →
  held e1 = held e0 →
  held <$> entry_of k (put_entry k' e1 w) = Some (held e).
Proof.
  intros He H0 H1. destruct (decide (k = k')) as [-> | Hne].
  - rewrite entry_of_put_entry. cbn. congruence.
  - rewrite entry_of_put_entry_ne by done. by rewrite He.
Qed.

(** No statement of [handleUpdate] takes or releases an entry's mutex:
    the [held] flag of every entry is the same before and after. *)
Lemma update_step_held (tid : nat) (t t' : Thread) (w w' : World)
    (k : string) (e : Entry) :
  handler_of (pc t) = Some Update →
  step tid t w = Stepped t' w' →
  entry_of k w = Some e →
  held <$> entry_of k w' = Some (held e).
Proof.
  intros Hh Hs He. destruct t as [l k' tok b rel o f rl rv rp].
  cbv [pc] in Hh.
  assert (held <$> entry_of k w = Some (held e)) as Hsame by (by rewrite He).
  destruct l; try discriminate Hh; clear Hh; step_cases Hs;
    try exact Hsame;
    try (eapply held_put_entry; [exact He | eassumption | reflexivity]).
  all: destruct w as [[? ? ?] ?]; exact Hsame.
Qed.

(** C1: [handleUpdate] tests and writes the entry without taking its
    mutex (lines 139-148), so the exclusion the reservations rely on does
    not hold.  On the server of [Scenario.racing] the two updates sent
    with [tokA] both pass the test of line 139 before either writes; the
    first releases and goroutine 2 reserves the key under [tokB]; the
    second update, whose token is no longer the entry's, still writes its
    body and empties the lockID, so goroutine 3 reserves the key under
    [tokC] while [tokB] was never released.  The last part runs an update
    to completion while another goroutine is inside the entry's mutex. *)
Theorem duplicate_update_breaks_exclusion :
  (* both updates are past the token test, nothing written yet *)
  pc <$> threads (schedule (take 14 Scenario.interleaving) Scenario.racing)
    = [L144; L144; L83; L83]
  (* the first update has released and goroutine 2 holds the key *)
  ∧ entry_of "foo" (world (schedule (take 30 Scenario.interleaving) Scenario.racing))
    = Some (mkEntry false [] "a" Scenario.tokB)
  (* every request has been answered successfully *)
  ∧ reply <$> threads (schedule Scenario.interleaving Scenario.racing)
    = [Some (mkReply StatusNoContent NoBody);
       Some (mkReply StatusNoContent NoBody);
       Some (mkReply StatusOK (JsonBody (mkResponse Scenario.tokB "a")));
       Some (mkReply StatusOK (JsonBody (mkResponse Scenario.tokC "b")))]
  ∧ entry_of "foo" (world (schedule Scenario.interleaving Scenario.racing))
    = Some (mkEntry false [] "b" Scenario.tokC)
  ∧ Scenario.tokB ≠ "" ∧ Scenario.tokC ≠ "" ∧ Scenario.tokB ≠ Scenario.tokC
  (* an update runs to completion inside somebody else's critical section *)
  ∧ held <$> entry_of "foo" Scenario.entry_mutex_taken = Some true
  ∧ (∃ t', handleUpdate 7 "foo" Scenario.tokA (Some "x") (Some ["false"])
             Scenario.entry_mutex_taken
           = ([L114; L121; L131; L132; L133; L135; L139; L144; L146; L151], t',
              put_entry "foo" (mkEntry true [] "x" Scenario.tokA)
                Scenario.entry_mutex_taken)
         ∧ pc t' = Ret
         ∧ reply t' = Some (mkReply StatusNoContent NoBody)).
Proof.
  split; [vm_compute; reflexivity |].
  split; [vm_compute; reflexivity |].
  split; [vm_compute; reflexivity |].
  split; [vm_compute; reflexivity |].
  split; [discriminate |]. split; [discriminate |]. split; [discriminate |].
  split; [vm_compute; reflexivity |].
  destruct (update_accepted 7 "foo" Scenario.tokA "x" ["false"]
              Scenario.entry_mutex_taken (mkEntry true [] "hello" Scenario.tokA))
    as (t' & Hrun & Hpc & Hrep); [reflexivity | reflexivity | reflexivity |].
  exists t'. split; [exact Hrun |]. split; assumption.
Qed.

(** * Instances on the server of [Scenario] *)

Lemma update_rejects_bad_token_witness :
  ∃ t', handleUpdate 1 "foo" "not-the-token" (Some "x") (Some ["true"])
          Scenario.after_set
          = ([L114; L121; L131; L132; L133; L135; L139], t', Scenario.after_set)
        ∧ pc t' = Ret
        ∧ reply t' = Some (sendError
            "Your lock id isn't consistent with the currently held lock"
            StatusUnauthorized).
Proof.
  apply (update_rejects_bad_token 1 "foo" "not-the-token" "x" ["true"]
           Scenario.after_set Scenario.locked_foo);
    [reflexivity | reflexivity | discriminate].
Defined.


Lemma release_then_reserve_witness :
  ∃ t1 w1 t2 w2,
    handleUpdate 1 "foo" Scenario.tokA (Some "world") (Some ["true"])
      Scenario.after_set
      = ([L114; L121; L131; L132; L133; L135; L139; L144; L146; L147; L148; L151],
         t1, w1)
    ∧ pc t1 = Ret
    ∧ reply t1 = Some (mkReply StatusNoContent NoBody)
    ∧ entry_of "foo" w1 = Some (mkEntry false [] "world" "")
    ∧ handleReservation 2 "foo" w1
      = ([L83; L84; L85; L92; L97; L98; L101; L102; L103; L103v; L108], t2, w2)
    ∧ pc t2 = Ret
    ∧ reply t2 = Some (mkReply StatusOK
        (JsonBody (mkResponse (fst (uuid Scenario.after_set)) "world")))
    ∧ entry_of "foo" w2
      = Some (mkEntry false [] "world" (fst (uuid Scenario.after_set))).
Proof.
  apply (release_then_reserve 1 2 "foo" Scenario.tokA "world" []
           Scenario.after_set Scenario.locked_foo);
    reflexivity.
Defined.

Lemma reserve_absent_not_found_witness :
  ∃ t', handleReservation 3 "unknown" Scenario.after_set
          = ([L83; L84; L85; L92], t', Scenario.after_set)
        ∧ pc t' = Ret
        ∧ reply t' = Some (sendError "Unable to claim lock on non-existent key"
                             StatusNotFound).
Proof.
  apply (proj1 (reserve_absent_not_found 3 "unknown" Scenario.after_set
                  eq_refl eq_refl)).
Defined.

Lemma update_without_release_keeps_lock_witness :
  ∃ t', handleUpdate 1 "foo" Scenario.tokA (Some "world") (Some ["false"])
          Scenario.after_set
          = ([L114; L121; L131; L132; L133; L135; L139; L144; L146; L151], t',
             put_entry "foo" (mkEntry false [] "world" Scenario.tokA)
               Scenario.after_set)
        ∧ pc t' = Ret
        ∧ reply t' = Some (mkReply StatusNoContent NoBody).
Proof.
  apply (update_without_release_keeps_lock 1 "foo" Scenario.tokA "world" []
           Scenario.after_set Scenario.locked_foo);
    reflexivity.
Defined.

Lemma set_creates_prelocked_witness :
  ∃ t6 w6,
    run 6 0 (goSet "foo" (Some "hello")) (NewServer Scenario.dev)
      = ([L159; L167; L168; L169; L171; L173], t6, w6)
    ∧ pc t6 = L175
    ∧ entry_of "foo" w6
      = Some (mkEntry false [] "" (fst (uuid (NewServer Scenario.dev)))).
Proof.
  apply (proj1 (set_creates_prelocked 0 "foo" "hello" (NewServer Scenario.dev)
                  (conj eq_refl eq_refl) eq_refl)).
Defined.

Lemma body_error_unlocks_cache_witness :
  ∃ t', handleUpdate 1 "foo" Scenario.tokA None (Some ["true"]) Scenario.after_set
          = ([L114; L116; L117], t',
             if wlocked (cache Scenario.after_set)
             then cache_unlocked Scenario.after_set else Scenario.after_set)
        ∧ pc t' = (if wlocked (cache Scenario.after_set) then Ret else Fault)
        ∧ reply t' = Some (sendError "Unable to read the body of the set request"
                             StatusInternalServerError).
Proof.
  apply (proj1 (body_error_unlocks_cache 1 "foo" Scenario.tokA (Some ["true"])
                  Scenario.after_set)).
Defined.

Lemma release_compared_to_true_only_witness :
  ∃ t', handleUpdate 1 "foo" Scenario.tokA (Some "world") (Some ["True"])
          Scenario.after_set
          = (([L114; L121; L131; L132; L133; L135; L139; L144; L146] ++
              (if bool_decide (head ["True"] = Some "true")
               then [L147; L148; L151] else [L151]))%list,
             t',
             put_entry "foo" (if bool_decide (head ["True"] = Some "true")
                              then mkEntry (held Scenario.locked_foo) [] "world" ""
                              else mkEntry (held Scenario.locked_foo)
                                     (cond Scenario.locked_foo) "world" Scenario.tokA)
               Scenario.after_set)
        ∧ pc t' = Ret
        ∧ reply t' = Some (mkReply StatusNoContent NoBody).
Proof.
  apply (proj1 (release_compared_to_true_only 1 "foo" Scenario.tokA "world"
                  ["True"] Scenario.after_set Scenario.locked_foo
                  eq_refl eq_refl eq_refl)).
Defined.

(** * Further properties of the handlers and of [uuid] *)

Ltac exec1 He :=
  rewrite run_S;
  cbv [step pc key lock_id body release ok fresh r_lockID r_value reply
       at_pc with_ok with_fresh with_r_lockID with_r_value with_reply
       on_entry goto respond
       cache_RLock cache_RUnlock cache_Lock cache_Unlock entry_Lock entry_Unlock
       cond_Wait cond_Wake cond_Broadcast set_lockID set_value uuid
       with_cache with_storage entry_of put_entry
       cache urandom wlocked readers storage held cond value lockID
       Nat.pred default wants_release comma_ok andb negb fst snd];
  rewrite ?He, ?lookup_insert_eq, ?insert_insert_eq; red1.

Ltac exec He :=
  cbv [handleReservation handleUpdate handleSet budget spawn goReservation
       goUpdate goSet];
  repeat exec1 He.

Lemma not_parked (tid : nat) (c : list nat) :
  tid ∉ c → bool_decide (tid ∈ c) = false.
Proof. intros H. by apply bool_decide_eq_false. Qed.

Lemma reservation_parks (tid : nat) (k : string) (w : World) (e : Entry) :
  wlocked (cache w) = false →
  entry_of k w = Some e →
  held e = false →
  lockID e ≠ "" →
  handleReservation tid k w
  = ([L83; L84; L85; L92; L97; L98; L99], parked_reservation k,
     put_entry k (mkEntry false (cond e ++ [tid])%list (value e) (lockID e)) w).
Proof.
  open_world w. destruct e as [h c v0 l]. cbv [held lockID].
  intros -> He -> Hl.
  exec He.
  rewrite bool_decide_false by done. red1. exec He.
  rewrite parked_after_wait. red1. exec He. reflexivity.
Qed.

Lemma reservation_resumes (tid : nat) (k : string) (w : World) (e : Entry) :
  entry_of k w = Some e →
  held e = false →
  tid ∉ cond e →
  lockID e = "" →
  ∃ t', run budget tid (parked_reservation k) w
        = ([L99w; L98; L101; L102; L103; L103v; L108], t',
           put_entry k (mkEntry false (cond e) (value e) (fst (uuid w))) (snd (uuid w)))
      ∧ pc t' = Ret
      ∧ reply t' = Some (mkReply StatusOK (JsonBody (mkResponse (fst (uuid w)) (value e)))).
Proof.
  open_world w. destruct e as [h c v0 l]. cbv [held lockID cond].
  intros He -> Hc ->.
  unfold parked_reservation. exec He.
  rewrite (not_parked _ _ Hc). red1. exec He.
  rewrite bool_decide_true by done. red1. exec He.
  eexists. split; [reflexivity |]. split; reflexivity.
Qed.

Lemma reservation_reparks (tid : nat) (k : string) (w : World) (e : Entry) :
  entry_of k w = Some e →
  held e = false →
  tid ∉ cond e →
  lockID e ≠ "" →
  run budget tid (parked_reservation k) w
  = ([L99w; L98; L99], parked_reservation k,
     put_entry k (mkEntry false (cond e ++ [tid])%list (value e) (lockID e)) w).
Proof.
  open_world w. destruct e as [h c v0 l]. cbv [held lockID cond].
  intros He -> Hc Hl.
  unfold parked_reservation. exec He.
  rewrite (not_parked _ _ Hc). red1. exec He.
  rewrite bool_decide_false by done. red1. exec He.
  rewrite parked_after_wait. red1. exec He. reflexivity.
Qed.

Lemma set_parks (tid : nat) (k v : string) (w : World) (e : Entry) :
  cache_free w →
  entry_of k w = Some e →
  held e = false →
  lockID e ≠ "" →
  handleSet tid k (Some v) w
  = ([L159; L167; L168; L169; L175; L177; L180; L181], parked_set k (Some v),
     put_entry k (mkEntry false (cond e ++ [tid])%list (value e) (lockID e)) w).
Proof.
  open_world w. destruct e as [h c v0 l]. cbv [held lockID].
  intros [-> ->] He -> Hl.
  exec He.
  rewrite bool_decide_false by done. red1. exec He.
  rewrite parked_after_wait. red1. exec He. reflexivity.
Qed.

Lemma set_resumes (tid : nat) (k v : string) (w : World) (e : Entry) :
  entry_of k w = Some e →
  held e = false →
  tid ∉ cond e →
  lockID e = "" →
  ∃ t', run budget tid (parked_set k (Some v)) w
        = ([L181w; L180; L184; L185; L187; L189; L194], t',
           put_entry k (mkEntry false (cond e) v (fst (uuid w))) (snd (uuid w)))
      ∧ pc t' = Ret
      ∧ reply t' = Some (mkReply StatusOK (JsonBody (mkResponse (fst (uuid w)) ""))).
Proof.
  open_world w. destruct e as [h c v0 l]. cbv [held lockID cond].
  intros He -> Hc ->.
  unfold parked_set. exec He.
  rewrite (not_parked _ _ Hc). red1. exec He.
  rewrite bool_decide_true by done. red1. exec He.
  eexists. split; [reflexivity |]. split; reflexivity.
Qed.

(** X3: an update of a key that is not in the map answers 404 NotFound
    after looking it up, whatever the token and the [release] values, and
    leaves the shared memory as it was. *)
Theorem update_unknown_key (tid : nat) (k tok v : string) (r : list string)
    (w : World) :
  wlocked (cache w) = false →
  entry_of k w = None →
  ∃ t', handleUpdate tid k tok (Some v) (Some r) w
        = ([L114; L121; L131; L132; L133; L135], t', w)
      ∧ pc t' = Ret
      ∧ reply t' = Some (sendError "This key hasn't been created" StatusNotFound).
Proof.
  open_world w. intros -> He. exec He.
  eexists. split; [reflexivity |]. split; reflexivity.
Qed.

Lemma update_rejected (tid : nat) (k tok v : string) (r : list string)
    (w : World) (e : Entry) :
  wlocked (cache w) = false →
  entry_of k w = Some e →
  lockID e ≠ tok →
  ∃ t', handleUpdate tid k tok (Some v) (Some r) w
        = ([L114; L121; L131; L132; L133; L135; L139], t', w)
      ∧ pc t' = Ret
      ∧ reply t' = Some (sendError
          "Your lock id isn't consistent with the currently held lock"
          StatusUnauthorized).
Proof.
  open_world w. intros -> He Hne. exec He.
  rewrite bool_decide_false by done. red1. exec He.
  eexists. split; [reflexivity |]. split; reflexivity.
Qed.

(** X4: once an update has released the lock, the token it used is
    worth nothing: the same update sent again is answered 401 and changes
    nothing. *)
Theorem released_token_is_dead (tid tid' : nat) (k tok v v2 : string)
    (rest r2 : list string) (w : World) (e : Entry) :
  wlocked (cache w) = false →
  entry_of k w = Some e →
  lockID e = tok →
  tok ≠ "" →
  ∃ p1 t1 w1 p2 t2,
    handleUpdate tid k tok (Some v) (Some ("true" :: rest)) w = (p1, t1, w1)
    ∧ reply t1 = Some (mkReply StatusNoContent NoBody)
    ∧ handleUpdate tid' k tok (Some v2) (Some r2) w1 = (p2, t2, w1)
    ∧ pc t2 = Ret
    ∧ reply t2 = Some (sendError
        "Your lock id isn't consistent with the currently held lock"
        StatusUnauthorized).
Proof.
  intros Hw He Htok Hne.
  destruct (update_accepted tid k tok v ("true" :: rest) w e Hw He Htok)
    as (t1 & Hrun1 & _ & Hrep1).
  change (wants_release (Some ("true" :: rest))) with true in Hrun1.
  set (w1 := put_entry k (mkEntry (held e) [] v "") w) in *.
  destruct (update_rejected tid' k tok v2 r2 w1 (mkEntry (held e) [] v ""))
    as (t2 & Hrun2 & Hpc2 & Hrep2);
    [exact Hw | apply entry_of_put_entry | cbn; congruence |].
  eexists _, t1, w1, _, t2. eauto.
Qed.

(** X5: on a key that does not exist yet, [set], then an update with the
    token [set] returned and [release=true], then a reservation, all
    succeed; the reservation returns the updated value under the third
    token drawn from the device. *)
Theorem set_update_reserve (tid1 tid2 tid3 : nat) (k v v2 : string)
    (rest : list string) (w : World) :
  cache_free w →
  entry_of k w = None →
  ∃ p1 t1 w1 p2 t2 w2 p3 t3 w3,
    handleSet tid1 k (Some v) w = (p1, t1, w1)
    ∧ reply t1 = Some (mkReply StatusOK
        (JsonBody (mkResponse (fst (uuid (snd (uuid w)))) "")))
    ∧ handleUpdate tid2 k (fst (uuid (snd (uuid w)))) (Some v2)
        (Some ("true" :: rest)) w1 = (p2, t2, w2)
    ∧ reply t2 = Some (mkReply StatusNoContent NoBody)
    ∧ handleReservation tid3 k w2 = (p3, t3, w3)
    ∧ pc t3 = Ret
    ∧ reply t3 = Some (mkReply StatusOK
        (JsonBody (mkResponse (fst (uuid (snd (uuid (snd (uuid w)))))) v2)))
    ∧ entry_of k w3
      = Some (mkEntry false [] v2 (fst (uuid (snd (uuid (snd (uuid w))))))).
Proof.
  intros Hfree He.
  destruct (set_absent tid1 k v w Hfree He) as (t1 & Hrun1 & _ & Hrep1).
  set (tokB := fst (uuid (snd (uuid w)))) in *.
  set (w1 := put_entry k (mkEntry false [] v tokB) (snd (uuid (snd (uuid w))))) in *.
  assert (wlocked (cache w1) = false) as Hw1 by exact (proj1 Hfree).
  destruct (update_accepted tid2 k tokB v2 ("true" :: rest) w1
              (mkEntry false [] v tokB) Hw1 (entry_of_put_entry _ _ _) eq_refl)
    as (t2 & Hrun2 & _ & Hrep2).
  change (wants_release (Some ("true" :: rest))) with true in Hrun2.
  cbn [held] in Hrun2.
  set (w2 := put_entry k (mkEntry false [] v2 "") w1) in *.
  destruct (reserve_unlocked tid3 k w2 (mkEntry false [] v2 "") Hw1
              (entry_of_put_entry _ _ _) eq_refl eq_refl)
    as (t3 & Hrun3 & Hpc3 & Hrep3).
  cbn [cond value] in Hrun3, Hrep3.
  eexists _, t1, w1, _, t2, w2, _, t3, _.
  split; [exact Hrun1 |]. split; [exact Hrep1 |].
  split; [exact Hrun2 |]. split; [exact Hrep2 |].
  split; [exact Hrun3 |]. split; [exact Hpc3 |].
  split; [exact Hrep3 |]. apply entry_of_put_entry.
Qed.

(** X6: a reservation of a locked key parks in [cond.Wait] and cannot
    move; after an update has released the key, the same goroutine resumes
    from the wait, takes the lock and returns the value the update wrote. *)
Theorem release_wakes_reservation (tid tid' : nat) (k tok v : string)
    (rest : list string) (w : World) (e : Entry) :
  wlocked (cache w) = false →
  entry_of k w = Some e →
  held e = false →
  lockID e = tok →
  tok ≠ "" →
  ∃ w1 p2 t2 w2 t3 w3,
    handleReservation tid k w
      = ([L83; L84; L85; L92; L97; L98; L99], parked_reservation k, w1)
    ∧ step tid (parked_reservation k) w1 = Blocked
    ∧ handleUpdate tid' k tok (Some v) (Some ("true" :: rest)) w1 = (p2, t2, w2)
    ∧ reply t2 = Some (mkReply StatusNoContent NoBody)
    ∧ run budget tid (parked_reservation k) w2
      = ([L99w; L98; L101; L102; L103; L103v; L108], t3, w3)
    ∧ pc t3 = Ret
    ∧ reply t3 = Some (mkReply StatusOK (JsonBody (mkResponse (fst (uuid w)) v)))
    ∧ entry_of k w3 = Some (mkEntry false [] v (fst (uuid w))).
Proof.
  intros Hw He Hh Htok Hne.
  assert (lockID e ≠ "") as Hl by congruence.
  pose proof (reservation_parks tid k w e Hw He Hh Hl) as Hrun1.
  set (e1 := mkEntry false (cond e ++ [tid])%list (value e) (lockID e)) in *.
  set (w1 := put_entry k e1 w) in *.
  assert (entry_of k w1 = Some e1) as He1 by apply entry_of_put_entry.
  assert (wlocked (cache w1) = false) as Hw1 by exact Hw.
  destruct (update_accepted tid' k tok v ("true" :: rest) w1 e1 Hw1 He1 Htok)
    as (t2 & Hrun2 & _ & Hrep2).
  change (wants_release (Some ("true" :: rest))) with true in Hrun2.
  cbn [held e1] in Hrun2.
  set (w2 := put_entry k (mkEntry false [] v "") w1) in *.
  destruct (reservation_resumes tid k w2 (mkEntry false [] v "")
              (entry_of_put_entry _ _ _) eq_refl) as (t3 & Hrun3 & Hpc3 & Hrep3);
    [apply not_elem_of_nil | reflexivity |].
  cbn [cond value] in Hrun3, Hrep3.
  eexists w1, _, t2, w2, t3, _.
  split; [exact Hrun1 |].
  split.
  { unfold step, parked_reservation, on_entry. cbn [pc key]. rewrite He1.
    unfold cond_Wake, e1. cbn [cond].
    by rewrite parked_after_wait. }
  split; [exact Hrun2 |]. split; [exact Hrep2 |].
  split; [exact Hrun3 |]. split; [exact Hpc3 |].
  split; [exact Hrep3 |]. apply entry_of_put_entry.
Qed.

(** X7: with two reservations parked on a key, a releasing update wakes
    both; the first to run takes the lock, and the second finds the key
    locked again and goes back to wait, alone in the queue. *)
Theorem release_wakes_one_of_two (tid1 tid2 tid' : nat) (k tok v : string)
    (rest : list string) (w : World) (e : Entry) :
  wlocked (cache w) = false →
  entry_of k w = Some e →
  held e = false →
  lockID e = tok →
  tok ≠ "" →
  ∃ w1 w2 p3 t3 w3 t4 w4 w5,
    handleReservation tid1 k w
      = ([L83; L84; L85; L92; L97; L98; L99], parked_reservation k, w1)
    ∧ handleReservation tid2 k w1
      = ([L83; L84; L85; L92; L97; L98; L99], parked_reservation k, w2)
    ∧ handleUpdate tid' k tok (Some v) (Some ("true" :: rest)) w2 = (p3, t3, w3)
    ∧ reply t3 = Some (mkReply StatusNoContent NoBody)
    ∧ run budget tid1 (parked_reservation k) w3
      = ([L99w; L98; L101; L102; L103; L103v; L108], t4, w4)
    ∧ reply t4 = Some (mkReply StatusOK (JsonBody (mkResponse (fst (uuid w)) v)))
    ∧ run budget tid2 (parked_reservation k) w4
      = ([L99w; L98; L99], parked_reservation k, w5)
    ∧ entry_of k w5 = Some (mkEntry false [tid2] v (fst (uuid w)))
    ∧ step tid2 (parked_reservation k) w5 = Blocked.
Proof.
  intros Hw He Hh Htok Hne.
  assert (lockID e ≠ "") as Hl by congruence.
  pose proof (reservation_parks tid1 k w e Hw He Hh Hl) as Hrun1.
  set (e1 := mkEntry false (cond e ++ [tid1])%list (value e) (lockID e)) in *.
  set (w1 := put_entry k e1 w) in *.
  pose proof (reservation_parks tid2 k w1 e1 Hw (entry_of_put_entry _ _ _)
                eq_refl Hl) as Hrun2.
  cbn [cond value lockID e1] in Hrun2.
  set (e2 := mkEntry false ((cond e ++ [tid1]) ++ [tid2])%list (value e) (lockID e)) in *.
  set (w2 := put_entry k e2 w1) in *.
  destruct (update_accepted tid' k tok v ("true" :: rest) w2 e2 Hw
              (entry_of_put_entry _ _ _) Htok) as (t3 & Hrun3 & _ & Hrep3).
  change (wants_release (Some ("true" :: rest))) with true in Hrun3.
  cbn [held e2] in Hrun3.
  set (w3 := put_entry k (mkEntry false [] v "") w2) in *.
  destruct (reservation_resumes tid1 k w3 (mkEntry false [] v "")
              (entry_of_put_entry _ _ _) eq_refl) as (t4 & Hrun4 & _ & Hrep4);
    [apply not_elem_of_nil | reflexivity |].
  cbn [cond value] in Hrun4, Hrep4.
  set (tokN := fst (uuid w3)) in *.
  set (w4 := put_entry k (mkEntry false [] v tokN) (snd (uuid w3))) in *.
  assert (tokN ≠ "") as HtokN by apply uuid_nonempty.
  pose proof (reservation_reparks tid2 k w4 (mkEntry false [] v tokN)
                (entry_of_put_entry _ _ _) eq_refl (not_elem_of_nil _) HtokN) as Hrun5.
  cbn [cond value lockID app] in Hrun5.
  eexists w1, w2, _, t3, w3, t4, w4, _.
  split; [exact Hrun1 |]. split; [exact Hrun2 |].
  split; [exact Hrun3 |]. split; [exact Hrep3 |].
  split; [exact Hrun4 |]. split; [exact Hrep4 |].
  split; [exact Hrun5 |].
  split; [apply entry_of_put_entry |].
  unfold step, parked_reservation, on_entry. cbn [pc key].
  rewrite entry_of_put_entry. unfold cond_Wake. cbn [cond].
  rewrite bool_decide_true; [reflexivity | apply list_elem_of_singleton; reflexivity].
Qed.

(** X8: a [set] on a locked key parks without touching the value; after
    a releasing update it resumes, stores its own body over the updated
    value and returns a new token. *)
Theorem release_wakes_set (tid tid' : nat) (k tok v v2 : string)
    (rest : list string) (w : World) (e : Entry) :
  cache_free w →
  entry_of k w = Some e →
  held e = false →
  lockID e = tok →
  tok ≠ "" →
  ∃ w1 p2 t2 w2 t3 w3,
    handleSet tid k (Some v2) w
      = ([L159; L167; L168; L169; L175; L177; L180; L181], parked_set k (Some v2), w1)
    ∧ step tid (parked_set k (Some v2)) w1 = Blocked
    ∧ value <$> entry_of k w1 = Some (value e)
    ∧ handleUpdate tid' k tok (Some v) (Some ("true" :: rest)) w1 = (p2, t2, w2)
    ∧ reply t2 = Some (mkReply StatusNoContent NoBody)
    ∧ run budget tid (parked_set k (Some v2)) w2
      = ([L181w; L180; L184; L185; L187; L189; L194], t3, w3)
    ∧ pc t3 = Ret
    ∧ reply t3 = Some (mkReply StatusOK (JsonBody (mkResponse (fst (uuid w)) "")))
    ∧ entry_of k w3 = Some (mkEntry false [] v2 (fst (uuid w)))
    ∧ fst (uuid w) ≠ "".
Proof.
  intros Hfree He Hh Htok Hne.
  assert (lockID e ≠ "") as Hl by congruence.
  pose proof (set_parks tid k v2 w e Hfree He Hh Hl) as Hrun1.
  set (e1 := mkEntry false (cond e ++ [tid])%list (value e) (lockID e)) in *.
  set (w1 := put_entry k e1 w) in *.
  assert (entry_of k w1 = Some e1) as He1 by apply entry_of_put_entry.
  destruct (update_accepted tid' k tok v ("true" :: rest) w1 e1 (proj1 Hfree) He1 Htok)
    as (t2 & Hrun2 & _ & Hrep2).
  change (wants_release (Some ("true" :: rest))) with true in Hrun2.
  cbn [held e1] in Hrun2.
  set (w2 := put_entry k (mkEntry false [] v "") w1) in *.
  destruct (set_resumes tid k v2 w2 (mkEntry false [] v "")
              (entry_of_put_entry _ _ _) eq_refl) as (t3 & Hrun3 & Hpc3 & Hrep3);
    [apply not_elem_of_nil | reflexivity |].
  cbn [cond value] in Hrun3, Hrep3.
  eexists w1, _, t2, w2, t3, _.
  split; [exact Hrun1 |].
  split.
  { unfold step, parked_set, on_entry. cbn [pc key]. rewrite He1.
    unfold cond_Wake, e1. cbn [cond]. by rewrite parked_after_wait. }
  split; [by rewrite He1 |].
  split; [exact Hrun2 |]. split; [exact Hrep2 |].
  split; [exact Hrun3 |]. split; [exact Hpc3 |].
  split; [exact Hrep3 |]. split; [apply entry_of_put_entry | apply uuid_nonempty].
Qed.

(** X9: [handleUpdate] broadcasts (line 147) before it empties the
    lockID (line 148) and holds no mutex meanwhile.  A parked reservation
    that runs between the two statements sees the key still locked and
    parks again; the update then completes, and the key is left unlocked
    with the reservation still waiting for a broadcast. *)
Theorem lost_wakeup (tid tid' : nat) (k tok v : string)
    (rest : list string) (w : World) (e : Entry) :
  wlocked (cache w) = false →
  entry_of k w = Some e →
  held e = false →
  lockID e = tok →
  tok ≠ "" →
  ∃ w1 t2 w2 w3 t4 w4,
    handleReservation tid k w
      = ([L83; L84; L85; L92; L97; L98; L99], parked_reservation k, w1)
    ∧ run 10 tid' (goUpdate k tok (Some v) (Some ("true" :: rest))) w1
      = ([L114; L121; L131; L132; L133; L135; L139; L144; L146; L147], t2, w2)
    ∧ pc t2 = L148
    ∧ run budget tid (parked_reservation k) w2
      = ([L99w; L98; L99], parked_reservation k, w3)
    ∧ run budget tid' t2 w3 = ([L148; L151], t4, w4)
    ∧ pc t4 = Ret
    ∧ reply t4 = Some (mkReply StatusNoContent NoBody)
    ∧ entry_of k w4 = Some (mkEntry false [tid] v "")
    ∧ step tid (parked_reservation k) w4 = Blocked.
Proof.
  intros Hw He Hh Htok Hne.
  assert (lockID e ≠ "") as Hl by congruence.
  pose proof (reservation_parks tid k w e Hw He Hh Hl) as Hrun1.
  destruct e as [h c v0 l]. cbn [held cond value lockID] in *. subst h l.
  set (e1 := mkEntry false (c ++ [tid])%list v0 tok) in *.
  set (w1 := put_entry k e1 w) in *.
  assert (entry_of k w1 = Some e1) as He1 by apply entry_of_put_entry.
  assert (wlocked (cache w1) = false) as Hw1 by exact Hw.
  clearbody w1. clear He Hw. subst e1.
  destruct w1 as [[wl rd st] dev].
  cbv [entry_of cache storage wlocked] in He1, Hw1. subst wl.
  eexists _, _, _, _, _, _.
  split; [exact Hrun1 |]. clear Hrun1.
  split.
  { exec He1. rewrite bool_decide_true by done. red1. exec He1.
    rewrite bool_decide_true by done. red1. exec He1. reflexivity. }
  split; [reflexivity |].
  split.
  { unfold parked_reservation. exec He1.
    rewrite (not_parked _ _ (not_elem_of_nil _)). red1. exec He1.
    rewrite bool_decide_false by done. red1. exec He1.
    rewrite parked_after_wait. red1. exec He1. reflexivity. }
  split.
  { exec He1. reflexivity. }
  split; [reflexivity |]. split; [reflexivity |].
  split.
  { cbv [entry_of cache storage]. rewrite lookup_insert_eq.
    reflexivity. }
  unfold step, parked_reservation, on_entry. cbn [pc key].
  cbv [entry_of cache storage]. rewrite lookup_insert_eq.
  unfold cond_Wake. cbn [cond].
  rewrite bool_decide_true; [reflexivity | apply list_elem_of_singleton; reflexivity].
Qed.

Lemma step_other_key (tid : nat) (k : string) (t t' : Thread) (w w' : World) :
  key t ≠ k →
  step tid t w = Stepped t' w' →
  entry_of k w' = entry_of k w.
Proof.
  intros Hk Hs. destruct t as [l k' tok b rel o f rl rv rp].
  cbn [key] in Hk.
  destruct l; step_cases Hs; try reflexivity;
    try (by apply entry_of_put_entry_ne);
    destruct w as [[? ? ?] ?]; try reflexivity;
    rewrite entry_of_put_entry_ne by congruence; reflexivity.
Qed.

Lemma sched_other_key (k : string) (tid : nat) (c : Config) :
  Forall (λ t, key t ≠ k) (threads c) →
  entry_of k (world (sched tid c)) = entry_of k (world c)
  ∧ Forall (λ t, key t ≠ k) (threads (sched tid c)).
Proof.
  intros Hall. unfold sched.
  destruct (threads c !! tid) as [t |] eqn:Ht; [| done].
  destruct (step tid t (world c)) as [t' w' | |] eqn:Hs; [| done | done].
  assert (key t ≠ k) as Hk.
  { rewrite Forall_lookup in Hall. by apply (Hall tid). }
  cbn [world threads]. split.
  - by eapply step_other_key.
  - apply Forall_insert; [exact Hall |]. by rewrite (step_key _ _ _ _ _ Hs).
Qed.

(** X10: whatever the interleaving, goroutines working on other keys
    leave the entry of [k] exactly as it is. *)
Theorem other_keys_untouched (k : string) (picks : list nat) (c : Config) :
  Forall (λ t, key t ≠ k) (threads c) →
  entry_of k (world (schedule picks c)) = entry_of k (world c).
Proof.
  revert c. induction picks as [| tid picks IH]; intros c Hall; [reflexivity |].
  destruct (sched_other_key k tid c Hall) as [He Hall'].
  change (schedule (tid :: picks) c) with (schedule picks (sched tid c)).
  rewrite (IH _ Hall'). exact He.
Qed.

Lemma step_keeps_keys (tid : nat) (k : string) (t t' : Thread) (w w' : World) :
  is_Some (entry_of k w) →
  step tid t w = Stepped t' w' →
  is_Some (entry_of k w').
Proof.
  intros Hk Hs. destruct t as [l k' tok b rel o f rl rv rp].
  assert (∀ e1 w1, is_Some (entry_of k w1) → is_Some (entry_of k (put_entry k' e1 w1)))
    as Hput.
  { intros e1 w1 H1. destruct (decide (k = k')) as [-> | Hne].
    - rewrite entry_of_put_entry. eauto.
    - by rewrite entry_of_put_entry_ne. }
  destruct l; step_cases Hs; try exact Hk; try (by apply Hput);
    destruct w as [[? ? ?] ?]; try exact Hk; apply Hput; exact Hk.
Qed.

(** X11: no statement of any handler removes a key from the map: a key
    that is present stays present under every schedule. *)
Theorem keys_never_removed (k : string) (picks : list nat) (c : Config) :
  is_Some (entry_of k (world c)) →
  is_Some (entry_of k (world (schedule picks c))).
Proof.
  revert c. induction picks as [| tid picks IH]; intros c Hk; [exact Hk |].
  change (schedule (tid :: picks) c) with (schedule picks (sched tid c)).
  apply IH. unfold sched.
  destruct (threads c !! tid) as [t |] eqn:Ht; [| done].
  destruct (step tid t (world c)) as [t' w' | |] eqn:Hs; [| done | done].
  cbn [world]. by eapply step_keeps_keys.
Qed.

Ltac step_cases_full Hs :=
  cbv [step pc key ok body release fresh on_entry goto respond uuid
       cache_RLock cache_RUnlock cache_Lock cache_Unlock at_pc with_ok with_fresh
       with_r_lockID with_r_value with_reply lock_id r_lockID r_value reply
       entry_Lock entry_Unlock cond_Wait cond_Wake cond_Broadcast set_lockID
       set_value entry_of put_entry with_storage with_cache
       cache storage urandom wlocked readers] in Hs;
  repeat case_match; simplify_eq.

Lemma mem_by_compute (l0 : Label) (ls : list Label) :
  bool_decide (l0 ∈ ls) = true → l0 ∈ ls.
Proof. intros H. by apply bool_decide_eq_true in H. Qed.

Ltac same_or_at :=
  first [ left; reflexivity | right; apply mem_by_compute; reflexivity ].

(** X12: one statement changes the value of an existing entry only at
    lines 144, 173 or 185, and its lockID only at lines 101, 148, 173 or
    184, whatever the state of the goroutine and of the memory. *)
Theorem entry_fields_written_at (tid : nat) (k : string) (t t' : Thread)
    (w w' : World) (e e' : Entry) :
  step tid t w = Stepped t' w' →
  entry_of k w = Some e →
  entry_of k w' = Some e' →
  (value e' = value e ∨ pc t ∈ [L144; L173; L185])
  ∧ (lockID e' = lockID e ∨ pc t ∈ [L101; L148; L173; L184]).
Proof.
  intros Hs He. destruct t as [l k' tok b rel o f rl rv rp].
  destruct w as [[wl rd st] dev]. cbn [pc].
  cbv [entry_of cache storage] in He.
  destruct l; step_cases_full Hs;
    cbv [entry_of cache storage]; intros He';
    try (apply lookup_insert_Some in He' as [[-> <-] | [Hne He']]);
    simplify_eq; cbn; split; same_or_at.
Qed.

(** An invariant of the memory kept by every statement of a class of
    goroutines is kept by every schedule of such goroutines. *)
Lemma schedule_class (P : Thread → Prop) (I : World → Prop)
    (picks : list nat) (c : Config) :
  (∀ tid t w t' w', P t → step tid t w = Stepped t' w' → P t' ∧ (I w → I w')) →
  Forall P (threads c) →
  I (world c) →
  I (world (schedule picks c)).
Proof.
  intros Hstep. revert c.
  induction picks as [| tid picks IH]; intros c HP HI; [exact HI |].
  change (schedule (tid :: picks) c) with (schedule picks (sched tid c)).
  unfold sched.
  destruct (threads c !! tid) as [t |] eqn:Ht; [| by apply IH].
  destruct (step tid t (world c)) as [t' w' | |] eqn:Hs; [| by apply IH ..].
  assert (P t) as HPt by (rewrite Forall_lookup in HP; by apply (HP tid)).
  destruct (Hstep _ _ _ _ _ HPt Hs) as [HPt' HI'].
  apply IH; cbn [threads world]; [by apply Forall_insert | by apply HI'].
Qed.

Lemma stopped_halts (tid : nat) (t t' : Thread) (w w' : World) :
  handler_of (pc t) = None → step tid t w = Stepped t' w' → False.
Proof.
  destruct t as [l k' tok b rel o f rl rv rp]. cbn [pc].
  destruct l; try discriminate; intros _; cbv [step pc]; discriminate.
Qed.

(** X13: as long as only reservations run, no stored value changes. *)
Theorem reservations_never_change_values (k : string) (v : string)
    (picks : list nat) (c : Config) :
  Forall only_reserving (threads c) →
  value <$> entry_of k (world c) = Some v →
  value <$> entry_of k (world (schedule picks c)) = Some v.
Proof.
  apply (schedule_class only_reserving
           (λ w, value <$> entry_of k w = Some v)).
  intros tid t w t' w' HP Hs. split.
  - destruct (step_handler _ _ _ _ _ Hs) as [Heq | Heq]; [| by right].
    destruct HP as [HP | HP]; [left | right]; congruence.
  - destruct HP as [HP | HP]; [| by destruct (stopped_halts _ _ _ _ _ HP Hs)].
    destruct t as [l k' tok b rel o f rl rv rp].
    destruct w as [[wl rd st] dev]. cbn [pc] in HP.
    destruct l; try discriminate HP; clear HP; step_cases_full Hs;
      cbv [entry_of cache storage]; try done;
      intros Hv;
      (destruct (decide (k' = k)) as [-> | Hne];
       [rewrite lookup_insert_eq; rewrite H in Hv; first [exact Hv | reflexivity]
       | by rewrite lookup_insert_ne]).
Qed.

(** X14: as long as only updates run, an unlocked key stays unlocked:
    [handleUpdate] never issues a token. *)
Theorem updates_never_lock (k : string) (picks : list nat) (c : Config) :
  Forall only_updating (threads c) →
  lockID <$> entry_of k (world c) = Some "" →
  lockID <$> entry_of k (world (schedule picks c)) = Some "".
Proof.
  apply (schedule_class only_updating
           (λ w, lockID <$> entry_of k w = Some "")).
  intros tid t w t' w' HP Hs. split.
  - destruct (step_handler _ _ _ _ _ Hs) as [Heq | Heq]; [| by right].
    destruct HP as [HP | HP]; [left | right]; congruence.
  - destruct HP as [HP | HP]; [| by destruct (stopped_halts _ _ _ _ _ HP Hs)].
    destruct t as [l k' tok b rel o f rl rv rp].
    destruct w as [[wl rd st] dev]. cbn [pc] in HP.
    destruct l; try discriminate HP; clear HP; step_cases_full Hs;
      cbv [entry_of cache storage]; try done;
      intros Hv;
      (destruct (decide (k' = k)) as [-> | Hne];
       [rewrite lookup_insert_eq; rewrite H in Hv; first [exact Hv | reflexivity]
       | by rewrite lookup_insert_ne]).
Qed.

Ltac fin He :=
  cbv [at_rest cache_free snd entry_of cache storage wlocked readers];
  split; [split; reflexivity |];
  let e' := fresh "e'" in
  intros e'; rewrite ?lookup_insert_eq, ?He; intros [= <-]; reflexivity.

(** X15: started when nobody holds the cache lock nor the mutex of its
    entry, a handler that runs until it returns, parks or faults leaves
    both free: none of the three ends, or waits, inside a lock. *)
Theorem handlers_hold_no_lock_at_rest (tid : nat) (k tok : string)
    (b : option string) (rel : option (list string)) (w : World) :
  at_rest k w →
  at_rest k (snd (handleReservation tid k w))
  ∧ at_rest k (snd (handleUpdate tid k tok b rel w))
  ∧ at_rest k (snd (handleSet tid k b w)).
Proof.
  intros [Hfree Hheld]. destruct w as [[wl rd st] dev].
  cbv [cache_free cache wlocked readers] in Hfree. destruct Hfree as [-> ->].
  cbv [entry_of cache storage] in Hheld.
  destruct (st !! k) as [[h c v l] |] eqn:He.
  - specialize (Hheld _ eq_refl). cbn [held] in Hheld. subst h.
    split; [| split].
    + exec He. destruct (decide (l = "")) as [-> | Hl].
      * rewrite bool_decide_true by done. red1. exec He. fin He.
      * rewrite bool_decide_false by done. red1. exec He.
        rewrite parked_after_wait. red1. exec He. fin He.
    + destruct b as [v2 |]; [| exec He; fin He].
      destruct rel as [r |]; [| exec He; fin He].
      exec He. destruct (decide (l = tok)) as [-> | Hl].
      * rewrite bool_decide_true by done. red1. exec He.
        destruct r as [| r0 r]; [exec He; fin He |].
        destruct (bool_decide (r0 = "true")); red1; exec He; fin He.
      * rewrite bool_decide_false by done. red1. exec He. fin He.
    + destruct b as [v2 |]; [| exec He; fin He].
      exec He. destruct (decide (l = "")) as [-> | Hl].
      * rewrite bool_decide_true by done. red1. exec He. fin He.
      * rewrite bool_decide_false by done. red1. exec He.
        rewrite parked_after_wait. red1. exec He. fin He.
  - split; [| split].
    + exec He. fin He.
    + destruct b as [v2 |]; [| exec He; fin He].
      destruct rel as [r |]; [| exec He; fin He].
      exec He. fin He.
    + destruct b as [v2 |]; [| exec He; fin He].
      exec He. fin He.
Qed.

Lemma read16_length (d : list Z) : List.length (Uuid.read16 d) = 16%nat.
Proof.
  unfold Uuid.read16.
  rewrite length_app, length_take, length_fmap, length_replicate, length_take.
  lia.
Qed.

Lemma sixteen (l : list Z) :
  List.length l = 16%nat →
  ∃ b0 b1 b2 b3 b4 b5 b6 b7 b8 b9 b10 b11 b12 b13 b14 b15,
    l = [b0; b1; b2; b3; b4; b5; b6; b7; b8; b9; b10; b11; b12; b13; b14; b15].
Proof.
  intros H.
  do 16 (destruct l as [| ? l]; [discriminate H |]).
  destruct l; [| discriminate H]. do 16 eexists. reflexivity.
Qed.

Lemma nibble_cases (m : Z) (P : Z → Prop) :
  0 ≤ m < 16 →
  P 0 → P 1 → P 2 → P 3 → P 4 → P 5 → P 6 → P 7 →
  P 8 → P 9 → P 10 → P 11 → P 12 → P 13 → P 14 → P 15 → P m.
Proof.
  intros Hm. intros.
  assert (m = 0 ∨ m = 1 ∨ m = 2 ∨ m = 3 ∨ m = 4 ∨ m = 5 ∨ m = 6 ∨ m = 7 ∨
          m = 8 ∨ m = 9 ∨ m = 10 ∨ m = 11 ∨ m = 12 ∨ m = 13 ∨ m = 14 ∨ m = 15)
    as Hc by lia.
  repeat (destruct Hc as [-> | Hc]; [assumption |]). subst. assumption.
Qed.

Lemma land15_range (x : Z) : 0 ≤ Z.land x 15 < 16.
Proof.
  change 15 with (Z.ones 4). rewrite Z.land_ones by lia.
  apply Z.mod_pos_bound. lia.
Qed.

Lemma version_digit (x : Z) :
  Uuid.hex_digit (Z.shiftr (Z.land (Z.lor (Z.land x 15) 64) 255) 4) = "4"%char.
Proof.
  apply (nibble_cases (Z.land x 15)
           (λ m, Uuid.hex_digit (Z.shiftr (Z.land (Z.lor m 64) 255) 4) = "4"%char));
    [apply land15_range | reflexivity ..].
Qed.

Lemma variant_digit (x : Z) :
  Uuid.hex_digit (Z.shiftr (Z.land (Z.lor (Z.land x 63) 128) 255) 4)
  ∈ ["8"; "9"; "a"; "b"]%char.
Proof.
  assert (Z.shiftr (Z.land (Z.lor (Z.land x 63) 128) 255) 4 = 8 + Z.shiftr (Z.land x 63) 4) as ->.
  { change 63 with (Z.ones 6). rewrite Z.land_ones by lia.
    assert (0 ≤ x mod 2 ^ 6 < 64) as Hm by (apply Z.mod_pos_bound; lia).
    set (m := x mod 2 ^ 6) in *. clearbody m.
    assert (Z.lor m 128 = m + 128) as ->.
    { rewrite <- Z.add_nocarry_lor; [reflexivity |].
      apply Z.bits_inj'. intros n Hn. rewrite Z.land_spec, Z.bits_0.
      destruct (Z.lt_ge_cases n 7).
      - assert (Z.testbit 128 n = false) as ->; [| apply andb_false_r].
        assert (n = 0 ∨ n = 1 ∨ n = 2 ∨ n = 3 ∨ n = 4 ∨ n = 5 ∨ n = 6) as Hc by lia.
        repeat (destruct Hc as [-> | Hc]; [reflexivity |]). subst. reflexivity.
      - assert (Z.testbit m n = false) as ->; [| reflexivity].
        destruct (Z.eq_dec m 0) as [-> | Hm0]; [apply Z.bits_0 |].
        apply Z.bits_above_log2; [lia |].
        assert (Z.log2 m < 6); [| lia]. apply Z.log2_lt_pow2; lia. }
    change 255 with (Z.ones 8). rewrite Z.land_ones by lia.
    rewrite Z.mod_small by lia.
    rewrite !Z.shiftr_div_pow2 by lia. change (2 ^ 4) with 16.
    assert (m + 128 = m + 8 * 16) as -> by lia.
    rewrite Z.div_add by lia. lia. }
  assert (0 ≤ Z.shiftr (Z.land x 63) 4 < 4) as Hr.
  { change 63 with (Z.ones 6). rewrite Z.land_ones by lia.
    rewrite Z.shiftr_div_pow2 by lia.
    assert (0 ≤ x mod 2 ^ 6 < 64) as Hm by (apply Z.mod_pos_bound; lia).
    change (2 ^ 4) with 16. split; [apply Z.div_pos; lia |].
    apply Z.div_lt_upper_bound; lia. }
  set (q := Z.shiftr (Z.land x 63) 4) in *. clearbody q.
  assert (q = 0 ∨ q = 1 ∨ q = 2 ∨ q = 3) as Hc by lia.
  destruct Hc as [-> | [-> | [-> | ->]]]; cbn;
    repeat first [apply list_elem_of_here | apply list_elem_of_further].
Qed.

(** X1: whatever the random device delivers, [uuid] returns 36
    characters with hyphens at positions 8, 13, 18 and 23, the version
    digit 4 at position 14 and a variant digit 8, 9, a or b at 19. *)
Theorem uuid_shape (dev : list (list Z)) :
  let s := fst (Uuid.uuid dev) in
  String.length s = 36%nat
  ∧ String.get 8 s = Some "-"%char
  ∧ String.get 13 s = Some "-"%char
  ∧ String.get 18 s = Some "-"%char
  ∧ String.get 23 s = Some "-"%char
  ∧ String.get 14 s = Some "4"%char
  ∧ ∃ c, String.get 19 s = Some c ∧ c ∈ ["8"; "9"; "a"; "b"]%char.
Proof.
  assert (∀ d, let s := Uuid.format (Uuid.read16 d) in
    String.length s = 36%nat
    ∧ String.get 8 s = Some "-"%char
    ∧ String.get 13 s = Some "-"%char
    ∧ String.get 18 s = Some "-"%char
    ∧ String.get 23 s = Some "-"%char
    ∧ String.get 14 s = Some "4"%char
    ∧ ∃ c, String.get 19 s = Some c ∧ c ∈ ["8"; "9"; "a"; "b"]%char) as Hd.
  { intros d.
    destruct (sixteen _ (read16_length d))
      as (b0 & b1 & b2 & b3 & b4 & b5 & b6 & b7 & b8 & b9 & b10 & b11 & b12 &
          b13 & b14 & b15 & ->).
    unfold Uuid.format, Uuid.slice. cbn. unfold Uuid.hex_byte.
    cbv [String.append String.get String.length].
    repeat (split; [reflexivity |]).
    split; [f_equal; apply version_digit |].
    eexists. split; [reflexivity | apply variant_digit]. }
  destruct dev as [| d rest]; apply Hd.
Qed.

Lemma hex_digit_inj (a b : Z) :
  0 ≤ a < 16 → 0 ≤ b < 16 → Uuid.hex_digit a = Uuid.hex_digit b → a = b.
Proof.
  intros Ha Hb. revert Hb.
  apply (nibble_cases a (λ a, 0 ≤ b < 16 → Uuid.hex_digit a = Uuid.hex_digit b → a = b));
    [exact Ha | ..];
    intros Hb;
    apply (nibble_cases b (λ b, Uuid.hex_digit _ = Uuid.hex_digit b → _ = b));
    first [exact Hb | intros; first [reflexivity | discriminate]].
Qed.

Lemma hex_byte_inj (x y : Z) :
  0 ≤ x < 256 → 0 ≤ y < 256 →
  Uuid.hex_digit (Z.shiftr (Z.land x 255) 4) = Uuid.hex_digit (Z.shiftr (Z.land y 255) 4) →
  Uuid.hex_digit (Z.land x 15) = Uuid.hex_digit (Z.land y 15) →
  x = y.
Proof.
  intros Hx Hy.
  change 255 with (Z.ones 8). change 15 with (Z.ones 4).
  rewrite !Z.land_ones, !Z.shiftr_div_pow2 by lia.
  rewrite (Z.mod_small x), (Z.mod_small y) by lia.
  change (2 ^ 4) with 16.
  intros Hhi Hlo.
  apply hex_digit_inj in Hhi;
    [| split; [apply Z.div_pos; lia | apply Z.div_lt_upper_bound; lia] ..].
  apply hex_digit_inj in Hlo; [| apply Z.mod_pos_bound; lia ..].
  rewrite (Z.div_mod x 16), (Z.div_mod y 16) by lia. congruence.
Qed.

Lemma read16_range (d : list Z) : Forall (λ x, 0 ≤ x < 256) (Uuid.read16 d).
Proof.
  unfold Uuid.read16. apply Forall_app. split.
  - apply Forall_take, Forall_fmap, Forall_forall. intros x _. cbn.
    change 255 with (Z.ones 8). rewrite Z.land_ones by lia.
    apply Z.mod_pos_bound. lia.
  - apply Forall_replicate. lia.
Qed.

Lemma version_range (x : Z) : 0 ≤ Z.lor (Z.land x 15) 64 < 256.
Proof.
  apply (nibble_cases (Z.land x 15) (λ m, 0 ≤ Z.lor m 64 < 256));
    [apply land15_range | (split; [apply Z.leb_le | apply Z.ltb_lt]; reflexivity) ..].
Qed.

Lemma variant_range (x : Z) : 0 ≤ Z.lor (Z.land x 63) 128 < 256.
Proof.
  split.
  - apply Z.lor_nonneg. split; [apply Z.land_nonneg; lia | lia].
  - assert (Z.lor (Z.land x 63) 128 < 2 ^ 8); [| lia].
    assert (0 <= Z.land x 63)%Z by (apply Z.land_nonneg; lia).
    assert (0 <= Z.lor (Z.land x 63) 128)%Z by (apply Z.lor_nonneg; lia).
    destruct (Z.eq_dec (Z.lor (Z.land x 63) 128) 0) as [-> | Hnz]; [lia |].
    apply Z.log2_lt_pow2; [lia |].
    rewrite Z.log2_lor by lia.
    assert (Z.log2 (Z.land x 63) <= Z.log2 63)%Z.
    { apply Z.log2_le_mono. change 63 with (Z.ones 6).
      rewrite Z.land_ones by lia.
      assert (0 ≤ x mod 2 ^ 6 < 2 ^ 6) by (apply Z.mod_pos_bound; lia). 
      change (Z.ones 6) with 63. lia. }
    change (Z.log2 63) with 5 in *. change (Z.log2 128) with 7. lia.
Qed.

Lemma sixteen_range (l : list Z) :
  List.length l = 16%nat →
  Forall (λ x, 0 ≤ x < 256) l →
  ∃ b0 b1 b2 b3 b4 b5 b6 b7 b8 b9 b10 b11 b12 b13 b14 b15,
    l = [b0; b1; b2; b3; b4; b5; b6; b7; b8; b9; b10; b11; b12; b13; b14; b15]
    ∧ Forall (λ x, 0 ≤ x < 256)
        [b0; b1; b2; b3; b4; b5; b6; b7; b8; b9; b10; b11; b12; b13; b14; b15].
Proof.
  intros Hlen Hr. destruct (sixteen l Hlen)
    as (b0 & b1 & b2 & b3 & b4 & b5 & b6 & b7 & b8 & b9 & b10 & b11 & b12 &
        b13 & b14 & b15 & ->).
  do 16 eexists. split; [reflexivity | exact Hr].
Qed.

(** X2: two calls of [uuid] that return the same token have read the
    same sixteen bytes, apart from the six bits lines 241-242 overwrite. *)
Theorem token_determines_bytes (dev dev' : list (list Z)) :
  fst (Uuid.uuid dev) = fst (Uuid.uuid dev') →
  stamp (Uuid.read16 (hd [] dev)) = stamp (Uuid.read16 (hd [] dev')).
Proof.
  assert (∀ d d', Uuid.format (Uuid.read16 d) = Uuid.format (Uuid.read16 d') →
                  stamp (Uuid.read16 d) = stamp (Uuid.read16 d')) as Hd.
  { intros d d'.
    destruct (sixteen_range _ (read16_length d) (read16_range d))
      as (b0 & b1 & b2 & b3 & b4 & b5 & b6 & b7 & b8 & b9 & b10 & b11 & b12 &
          b13 & b14 & b15 & -> & Hr).
    destruct (sixteen_range _ (read16_length d') (read16_range d'))
      as (c0 & c1 & c2 & c3 & c4 & c5 & c6 & c7 & c8 & c9 & c10 & c11 & c12 &
          c13 & c14 & c15 & -> & Hr').
    repeat (apply Forall_cons in Hr as [? Hr]).
    repeat (apply Forall_cons in Hr' as [? Hr']).
    pose proof (version_range b6). pose proof (version_range c6).
    pose proof (variant_range b8). pose proof (variant_range c8).
    unfold Uuid.format, Uuid.slice, stamp. cbn. unfold Uuid.hex_byte.
    cbv [String.append].
    intros Heq. injection Heq as ?. 
    repeat (apply (f_equal2 cons); [apply hex_byte_inj; assumption |]).
    reflexivity. }
  destruct dev as [| d rest], dev' as [| d' rest']; apply Hd.
Qed.

Ltac use_good :=
  repeat match goal with
  | H : true = true → _ |- _ => specialize (H eq_refl)
  | H : false = true → _ |- _ => clear H
  end.

Lemma good_step (tid : nat) (t t' : Thread) (w w' : World) :
  good t w →
  step tid t w = Stepped t' w' →
  good t' w'.
Proof.
  intros (Hr & Hw & He & Hp & Hc) Hs.
  destruct t as [l k tok b rel o f rl rv rp]. destruct w as [[wl rd st] dev].
  cbv [readable in_wcs in_ecs has_ptr creating pc ok body key
       entry_of cache storage wlocked] in Hr, Hw, He, Hp, Hc.
  destruct l; try discriminate Hr; use_good; step_cases_full Hs;
    cbv [good readable in_wcs in_ecs has_ptr creating pc ok body key
         entry_of cache storage wlocked negb];
    rewrite ?lookup_insert_eq;
    repeat match goal with
           | H : ?x = Some _ |- context [?x] => rewrite H
           | H : ?x = None |- context [?x] => rewrite H
           end;
    cbn [fmap option_fmap option_map held comma_ok];
    try (repeat split; intros; try discriminate; eauto; fail);
    try (destruct (st !! k) eqn:Hk; cbn; repeat split; intros; try discriminate; eauto; fail).
  all: exfalso;
    first [ by destruct Hp as [? [=]] | cbn in *; simplify_eq; congruence ].
Qed.

Lemma enter_wcs (tid : nat) (t t' : Thread) (w w' : World) :
  step tid t w = Stepped t' w' →
  in_wcs (pc t') = true →
  in_wcs (pc t) = true ∨ wlocked (cache w) = false.
Proof.
  intros Hs. destruct t as [l k tok b rel o f rl rv rp].
  destruct w as [[wl rd st] dev].
  destruct l; step_cases_full Hs; cbn; intros Hin;
    first [discriminate Hin | by left | by right].
Qed.

Lemma enter_ecs (tid : nat) (t t' : Thread) (w w' : World) :
  step tid t w = Stepped t' w' →
  in_ecs (pc t') = true →
  in_ecs (pc t) = true ∨ held <$> entry_of (key t) w = Some false.
Proof.
  intros Hs. destruct t as [l k tok b rel o f rl rv rp].
  destruct w as [[wl rd st] dev].
  destruct l; step_cases_full Hs; cbn; intros Hin;
    first [discriminate Hin | by left
          | right; cbv [entry_of cache storage];
            repeat match goal with H : ?x = Some _ |- context [?x] => rewrite H end;
            cbn; congruence].
Qed.

Lemma creating_in_wcs (t : Thread) : creating t = true → in_wcs (pc t) = true.
Proof.
  destruct t as [l k tok b rel o f rl rv rp]. cbv [creating in_wcs pc ok].
  destruct l; try discriminate; reflexivity.
Qed.

Lemma good_frame (tid : nat) (t t' tj : Thread) (w w' : World) :
  good t w →
  good tj w →
  (in_wcs (pc t) = true → in_wcs (pc tj) = true → False) →
  (key t = key tj → in_ecs (pc t) = true → in_ecs (pc tj) = true → False) →
  step tid t w = Stepped t' w' →
  good tj w'.
Proof.
  intros (Hr & Hw & He & Hp & Hc) (Hrj & Hwj & Hej & Hpj & Hcj) Hxw Hxe Hs.
  pose proof (creating_in_wcs tj) as Hcw.
  unfold good.
  set (rj := readable tj) in *. set (wj := in_wcs (pc tj)) in *.
  set (ej := in_ecs (pc tj)) in *. set (pj := has_ptr tj) in *.
  set (cj := creating tj) in *. set (kj := key tj) in *.
  clearbody rj wj ej pj cj kj. clear tj.
  destruct t as [l k tok b rel o f rl rv rp]. destruct w as [[wl rd st] dev].
  cbv [readable in_wcs in_ecs has_ptr creating pc ok body key
       entry_of cache storage wlocked] in Hr, Hw, He, Hp, Hc, Hxw, Hxe.
  cbv [entry_of cache storage wlocked] in Hwj, Hej, Hpj, Hcj.
  revert Hrj Hwj Hej Hpj Hcj Hcw Hxw Hxe.
  destruct l; try discriminate Hr; use_good; step_cases_full Hs;
    intros Hrj Hwj Hej Hpj Hcj Hcw Hxw Hxe; cbn in Hxw, Hxe;
    (split; [exact Hrj |]);
    cbv [entry_of cache storage wlocked];
    (split; [intros Hin; first [exact (Hwj Hin) | reflexivity
                               | exfalso; specialize (Hwj Hin); congruence
                               | exfalso; by apply Hxw ] |]);
    try (split; [exact Hej | split; [exact Hpj | exact Hcj]]).
  all: try (destruct (decide (k = kj)) as [Heq | Hne];
    [ subst kj; rewrite !lookup_insert_eq;
      split;
      [ intros Hin; try (exfalso; by apply Hxe); specialize (Hej Hin);
        repeat match goal with Hx : _ !! _ = _ |- _ => rewrite Hx in Hej end;
        cbn in *; congruence
      | split;
        [ intros _; eauto
        | intros Hin; exfalso;
          first [ by apply Hxw, Hcw
                | specialize (Hcj Hin); congruence ] ] ]
    | rewrite !lookup_insert_ne by done;
      split; [exact Hej | split; [exact Hpj | exact Hcj]] ]; fail).
Qed.

Lemma safe_sched (tid : nat) (c : Config) : safe c → safe (sched tid c).
Proof.
  intros (Hgood & Hxw & Hxe). unfold sched.
  destruct (threads c !! tid) as [t |] eqn:Ht; [| done].
  destruct (step tid t (world c)) as [t' w' | |] eqn:Hs; [| done | done].
  pose proof (Hgood _ _ Ht) as Hgt.
  pose proof (step_key _ _ _ _ _ Hs) as Hkey.
  assert (∀ j tj, j ≠ tid → threads c !! j = Some tj →
            in_wcs (pc t') = true → in_wcs (pc tj) = true → False) as Hnw.
  { intros j tj Hj Htj Hin' Hinj.
    destruct (enter_wcs _ _ _ _ _ Hs Hin') as [Hin | Hfree].
    - exact (Hxw _ _ _ _ Hj Htj Ht Hinj Hin).
    - destruct (Hgood _ _ Htj) as (_ & Hwj & _). specialize (Hwj Hinj). congruence. }
  assert (∀ j tj, j ≠ tid → threads c !! j = Some tj → key t' = key tj →
            in_ecs (pc t') = true → in_ecs (pc tj) = true → False) as Hne.
  { intros j tj Hj Htj Hk Hin' Hinj. rewrite Hkey in Hk.
    destruct (enter_ecs _ _ _ _ _ Hs Hin') as [Hin | Hfree].
    - exact (Hxe _ _ _ _ Hj Htj Ht (eq_sym Hk) Hinj Hin).
    - destruct (Hgood _ _ Htj) as (_ & _ & Hej & _). specialize (Hej Hinj).
      rewrite <- Hk in Hej. congruence. }
  split; [| split]; cbn [threads world].
  - intros j tj Hj. destruct (decide (j = tid)) as [-> | Hjt].
    + rewrite list_lookup_insert_eq in Hj by (eapply lookup_lt_Some; exact Ht).
      injection Hj as <-. by eapply good_step.
    + rewrite list_lookup_insert_ne in Hj by done.
      eapply (good_frame tid t t' tj); [exact Hgt | exact (Hgood _ _ Hj) | | | exact Hs].
      * intros Hin Hinj. exact (Hxw _ _ _ _ Hjt Hj Ht Hinj Hin).
      * intros Hk Hin Hinj. exact (Hxe _ _ _ _ Hjt Hj Ht (eq_sym Hk) Hinj Hin).
  - intros i j ti tj Hij Hi Hj Hini Hinj.
    destruct (decide (i = tid)) as [-> | Hit], (decide (j = tid)) as [-> | Hjt].
    + done.
    + rewrite list_lookup_insert_eq in Hi by (eapply lookup_lt_Some; exact Ht).
      rewrite list_lookup_insert_ne in Hj by done. injection Hi as <-.
      exact (Hnw _ _ Hjt Hj Hini Hinj).
    + rewrite list_lookup_insert_eq in Hj by (eapply lookup_lt_Some; exact Ht).
      rewrite list_lookup_insert_ne in Hi by done. injection Hj as <-.
      exact (Hnw _ _ Hit Hi Hinj Hini).
    + rewrite list_lookup_insert_ne in Hi, Hj by done.
      exact (Hxw _ _ _ _ Hij Hi Hj Hini Hinj).
  - intros i j ti tj Hij Hi Hj Hk Hini Hinj.
    destruct (decide (i = tid)) as [-> | Hit], (decide (j = tid)) as [-> | Hjt].
    + done.
    + rewrite list_lookup_insert_eq in Hi by (eapply lookup_lt_Some; exact Ht).
      rewrite list_lookup_insert_ne in Hj by done. injection Hi as <-.
      exact (Hne _ _ Hjt Hj Hk Hini Hinj).
    + rewrite list_lookup_insert_eq in Hj by (eapply lookup_lt_Some; exact Ht).
      rewrite list_lookup_insert_ne in Hi by done. injection Hj as <-.
      exact (Hne _ _ Hit Hi (eq_sym Hk) Hinj Hini).
    + rewrite list_lookup_insert_ne in Hi, Hj by done.
      exact (Hxe _ _ _ _ Hij Hi Hj Hk Hini Hinj).
Qed.

Lemma safe_schedule (picks : list nat) (c : Config) :
  safe c → safe (schedule picks c).
Proof.
  revert c. induction picks as [| tid picks IH]; intros c Hc; [exact Hc |].
  change (schedule (tid :: picks) c) with (schedule picks (sched tid c)).
  by apply IH, safe_sched.
Qed.

Lemma request_good (t : Thread) (w : World) :
  request t → good t w ∧ in_wcs (pc t) = false ∧ in_ecs (pc t) = false.
Proof.
  intros [(k & ->) | [(k & tok & b & rel & ->) | (k & b & ->)]];
    (split; [| split; reflexivity]);
    (split; [reflexivity | repeat split; intros [=]]).
Qed.

Lemma requests_safe (ts : list Thread) (w : World) :
  Forall request ts → safe (mkConfig ts w).
Proof.
  intros Hts. rewrite Forall_lookup in Hts.
  split; [| split]; cbn [threads world].
  - intros j tj Hj. exact (proj1 (request_good tj w (Hts _ _ Hj))).
  - intros i j ti tj _ Hi _ Hin _.
    destruct (request_good ti w (Hts _ _ Hi)) as (_ & Hw & _). congruence.
  - intros i j ti tj _ Hi _ _ Hin _.
    destruct (request_good ti w (Hts _ _ Hi)) as (_ & _ & He). congruence.
Qed.


(** X17: under the same condition two goroutines are never both
    between [cache.Lock] and [cache.Unlock], nor both between
    [entry.Lock] and [entry.Unlock] of the same key. *)
Theorem critical_sections_exclusive (ts : list Thread) (w : World)
    (picks : list nat) (i j : nat) (ti tj : Thread) :
  Forall request ts →
  i ≠ j →
  threads (schedule picks (mkConfig ts w)) !! i = Some ti →
  threads (schedule picks (mkConfig ts w)) !! j = Some tj →
  (in_wcs (pc ti) = true → in_wcs (pc tj) = true → False)
  ∧ (key ti = key tj → in_ecs (pc ti) = true → in_ecs (pc tj) = true → False).
Proof.
  intros Hts Hij Hi Hj.
  destruct (safe_schedule picks _ (requests_safe ts w Hts)) as (_ & Hxw & Hxe).
  split; [exact (Hxw _ _ _ _ Hij Hi Hj) | exact (Hxe _ _ _ _ Hij Hi Hj)].
Qed.

(** * Instances of the further properties *)

Lemma token_determines_bytes_witness :
  stamp (Uuid.read16 [0; 0; 0; 0; 0; 0; 16; 0; 64])
  = stamp (Uuid.read16 [0; 0; 0; 0; 0; 0; 32; 0; 128]).
Proof.
  apply (token_determines_bytes [[0; 0; 0; 0; 0; 0; 16; 0; 64]]
           [[0; 0; 0; 0; 0; 0; 32; 0; 128]]).
  reflexivity.
Defined.

Lemma update_unknown_key_witness :
  ∃ t', handleUpdate 1 "bar" Scenario.tokA (Some "x") (Some ["true"])
          Scenario.after_set
        = ([L114; L121; L131; L132; L133; L135], t', Scenario.after_set)
      ∧ pc t' = Ret
      ∧ reply t' = Some (sendError "This key hasn't been created" StatusNotFound).
Proof.
  apply (update_unknown_key 1 "bar" Scenario.tokA "x" ["true"] Scenario.after_set);
    reflexivity.
Defined.

Lemma released_token_is_dead_witness :
  ∃ p1 t1 w1 p2 t2,
    handleUpdate 1 "foo" Scenario.tokA (Some "a") (Some ["true"]) Scenario.after_set
      = (p1, t1, w1)
    ∧ reply t1 = Some (mkReply StatusNoContent NoBody)
    ∧ handleUpdate 2 "foo" Scenario.tokA (Some "b") (Some ["true"]) w1 = (p2, t2, w1)
    ∧ pc t2 = Ret
    ∧ reply t2 = Some (sendError
        "Your lock id isn't consistent with the currently held lock"
        StatusUnauthorized).
Proof.
  apply (released_token_is_dead 1 2 "foo" Scenario.tokA "a" "b" [] ["true"]
           Scenario.after_set Scenario.locked_foo);
    [reflexivity | reflexivity | reflexivity | discriminate].
Defined.

Lemma set_update_reserve_witness :
  ∃ t3 w3,
    reply t3 = Some (mkReply StatusOK
      (JsonBody (mkResponse Scenario.tokB "world")))
    ∧ entry_of "foo" w3 = Some (mkEntry false [] "world" Scenario.tokB).
Proof.
  destruct (set_update_reserve 0 1 2 "foo" "hello" "world" []
              (NewServer Scenario.dev) (conj eq_refl eq_refl) eq_refl)
    as (p1 & t1 & w1 & p2 & t2 & w2 & p3 & t3 & w3 & _ & _ & _ & _ & _ & _ & H7 & H8).
  exists t3, w3. split; [exact H7 | exact H8].
Defined.

Lemma release_wakes_reservation_witness :
  ∃ t3 w3,
    reply t3 = Some (mkReply StatusOK
      (JsonBody (mkResponse (fst (uuid Scenario.after_set)) "world")))
    ∧ entry_of "foo" w3
      = Some (mkEntry false [] "world" (fst (uuid Scenario.after_set))).
Proof.
  destruct (release_wakes_reservation 2 1 "foo" Scenario.tokA "world" []
              Scenario.after_set Scenario.locked_foo
              eq_refl eq_refl eq_refl eq_refl ltac:(discriminate))
    as (w1 & p2 & t2 & w2 & t3 & w3 & _ & _ & _ & _ & _ & _ & H7 & H8).
  exists t3, w3. split; [exact H7 | exact H8].
Defined.

Lemma release_wakes_one_of_two_witness :
  ∃ w5,
    entry_of "foo" w5
      = Some (mkEntry false [3%nat] "world" (fst (uuid Scenario.after_set)))
    ∧ step 3 (parked_reservation "foo") w5 = Blocked.
Proof.
  destruct (release_wakes_one_of_two 2 3 1 "foo" Scenario.tokA "world" []
              Scenario.after_set Scenario.locked_foo
              eq_refl eq_refl eq_refl eq_refl ltac:(discriminate))
    as (w1 & w2 & p3 & t3 & w3 & t4 & w4 & w5 & _ & _ & _ & _ & _ & _ & _ & H8 & H9).
  exists w5. split; [exact H8 | exact H9].
Defined.

Lemma release_wakes_set_witness :
  ∃ t3 w3,
    pc t3 = Ret
    ∧ entry_of "foo" w3
      = Some (mkEntry false [] "mine" (fst (uuid Scenario.after_set))).
Proof.
  destruct (release_wakes_set 2 1 "foo" Scenario.tokA "world" "mine" []
              Scenario.after_set Scenario.locked_foo
              (conj eq_refl eq_refl) eq_refl eq_refl eq_refl ltac:(discriminate))
    as (w1 & p2 & t2 & w2 & t3 & w3 & _ & _ & _ & _ & _ & _ & H7 & _ & H9 & _).
  exists t3, w3. split; [exact H7 | exact H9].
Defined.

Lemma lost_wakeup_witness :
  ∃ w4,
    entry_of "foo" w4 = Some (mkEntry false [2%nat] "world" "")
    ∧ step 2 (parked_reservation "foo") w4 = Blocked.
Proof.
  destruct (lost_wakeup 2 1 "foo" Scenario.tokA "world" []
              Scenario.after_set Scenario.locked_foo
              eq_refl eq_refl eq_refl eq_refl ltac:(discriminate))
    as (w1 & t2 & w2 & w3 & t4 & w4 & _ & _ & _ & _ & _ & _ & _ & H8 & H9).
  exists w4. split; [exact H8 | exact H9].
Defined.

Lemma other_keys_untouched_witness :
  entry_of "bar" (world (schedule Scenario.interleaving Scenario.racing))
  = entry_of "bar" (world Scenario.racing).
Proof.
  apply (other_keys_untouched "bar" Scenario.interleaving Scenario.racing).
  unfold Scenario.racing. cbn [threads].
  repeat (apply Forall_cons_2; [vm_compute; discriminate |]). apply Forall_nil_2.
Defined.

Lemma keys_never_removed_witness :
  is_Some (entry_of "foo" (world (schedule Scenario.interleaving Scenario.racing))).
Proof.
  apply (keys_never_removed "foo" Scenario.interleaving Scenario.racing).
  exists Scenario.locked_foo. vm_compute. reflexivity.
Defined.

Lemma entry_fields_written_at_witness :
  (value (mkEntry false [] "x" Scenario.tokA) = value Scenario.locked_foo
   ∨ pc (at_pc L144 (goUpdate "foo" Scenario.tokA (Some "x") (Some ["true"])))
       ∈ [L144; L173; L185])
  ∧ (lockID (mkEntry false [] "x" Scenario.tokA) = lockID Scenario.locked_foo
     ∨ pc (at_pc L144 (goUpdate "foo" Scenario.tokA (Some "x") (Some ["true"])))
         ∈ [L101; L148; L173; L184]).
Proof.
  apply (entry_fields_written_at 1 "foo"
           (at_pc L144 (goUpdate "foo" Scenario.tokA (Some "x") (Some ["true"])))
           (at_pc L146 (goUpdate "foo" Scenario.tokA (Some "x") (Some ["true"])))
           Scenario.after_set
           (put_entry "foo" (mkEntry false [] "x" Scenario.tokA) Scenario.after_set)
           Scenario.locked_foo (mkEntry false [] "x" Scenario.tokA));
    vm_compute; reflexivity.
Defined.

Lemma reservations_never_change_values_witness :
  value <$> entry_of "foo"
    (world (schedule [0; 1; 0; 1; 0; 1; 0; 1; 0; 1; 0; 1; 0; 1; 0; 1]%nat
              (mkConfig [goReservation "foo"; goReservation "foo"]
                 Scenario.after_set)))
  = Some "hello".
Proof.
  apply (reservations_never_change_values "foo" "hello").
  - cbn [threads].
    repeat (apply Forall_cons_2; [left; reflexivity |]). apply Forall_nil_2.
  - vm_compute. reflexivity.
Defined.

Lemma updates_never_lock_witness :
  lockID <$> entry_of "foo"
    (world (schedule [0; 1; 0; 1; 0; 1; 0; 1; 0; 1; 0; 1; 0; 1; 0; 1]%nat
              (mkConfig [goUpdate "foo" "" (Some "a") (Some ["false"]);
                         goUpdate "foo" Scenario.tokA (Some "b") (Some ["true"])]
                 (put_entry "foo" (mkEntry false [] "hello" "") Scenario.after_set))))
  = Some "".
Proof.
  apply (updates_never_lock "foo").
  - cbn [threads].
    repeat (apply Forall_cons_2; [left; reflexivity |]). apply Forall_nil_2.
  - vm_compute. reflexivity.
Defined.

Lemma handlers_hold_no_lock_at_rest_witness :
  at_rest "foo" (snd (handleReservation 1 "foo" Scenario.after_set))
  ∧ at_rest "foo" (snd (handleUpdate 1 "foo" Scenario.tokA (Some "x")
                          (Some ["true"]) Scenario.after_set))
  ∧ at_rest "foo" (snd (handleSet 1 "foo" (Some "x") Scenario.after_set)).
Proof.
  apply (handlers_hold_no_lock_at_rest 1 "foo" Scenario.tokA (Some "x")
           (Some ["true"]) Scenario.after_set).
  split; [split; vm_compute; reflexivity |].
  intros e He. vm_compute in He. injection He as <-. reflexivity.
Defined.


Lemma critical_sections_exclusive_witness :
  ∃ ti tj,
    threads (schedule [0; 0; 1; 1]%nat
               (mkConfig [goSet "foo" (Some "a"); goSet "foo" (Some "b")]
                  Scenario.after_set)) !! 0%nat = Some ti
    ∧ threads (schedule [0; 0; 1; 1]%nat
                 (mkConfig [goSet "foo" (Some "a"); goSet "foo" (Some "b")]
                    Scenario.after_set)) !! 1%nat = Some tj
    ∧ pc ti = L168 ∧ pc tj = L167
    ∧ (in_wcs (pc ti) = true → in_wcs (pc tj) = true → False)
    ∧ (key ti = key tj → in_ecs (pc ti) = true → in_ecs (pc tj) = true → False).
Proof.
  exists (at_pc L168 (goSet "foo" (Some "a"))),
         (at_pc L167 (goSet "foo" (Some "b"))).
  assert (threads (schedule [0; 0; 1; 1]%nat
                     (mkConfig [goSet "foo" (Some "a"); goSet "foo" (Some "b")]
                        Scenario.after_set)) !! 0%nat
          = Some (at_pc L168 (goSet "foo" (Some "a")))) as H0
    by (vm_compute; reflexivity).
  assert (threads (schedule [0; 0; 1; 1]%nat
                     (mkConfig [goSet "foo" (Some "a"); goSet "foo" (Some "b")]
                        Scenario.after_set)) !! 1%nat
          = Some (at_pc L167 (goSet "foo" (Some "b")))) as H1
    by (vm_compute; reflexivity).
  split; [exact H0 |]. split; [exact H1 |].
  split; [reflexivity |]. split; [reflexivity |].
  apply (critical_sections_exclusive
           [goSet "foo" (Some "a"); goSet "foo" (Some "b")]
           Scenario.after_set [0; 0; 1; 1]%nat 0 1 _ _);
    [| discriminate | exact H0 | exact H1].
  apply Forall_cons_2; [right; right; by eexists _, _ |].
  apply Forall_cons_2; [right; right; by eexists _, _ |].
  apply Forall_nil_2.
Defined.
